(** * Smart Shopping Finder: the ranking and availability pipeline of
      [streamlit_app.py] (class [ShoppingFinder]).

    Python floats are read as real numbers ([R]), except where a record's
    percentage is computed: there the quotient and the product are rounded
    to the nearest double, as the machine rounds them, before [round] takes
    the nearest decimal.  Python ints are read as [Z]; [str] as [string]
    (the UTF-8 bytes of the text).  The HTTP services and
    numpy's random generator are outside the program: the services are an
    environment of replies, the generator an abstract state with one
    operation per numpy call. *)

From Stdlib Require Import Reals Lra Lia ZArith List String Ascii Bool.
From Stdlib Require Import DecimalString DecimalZ DecimalPos.
From Stdlib Require Import Permutation Sorted.
Import ListNotations.

Open Scope R_scope.

(** * Part I: the program *)

(** ** Floats *)

Module Float.

(** [np.radians]. *)
Definition radians (deg : R) : R := deg * PI / 180.

(** [a <= b] and [a < b] on floats, as booleans. *)
Definition leb (a b : R) : bool := if Rle_dec a b then true else false.
Definition ltb (a b : R) : bool := if Rlt_dec a b then true else false.

(** Nearest integer, ties to the even one. *)
Definition round_half_even (x : R) : Z :=
  let f := Int_part x in
  let r := frac_part x in
  if Rlt_dec r (1 / 2) then f
  else if Rlt_dec (1 / 2) r then (f + 1)%Z
  else if Z.even f then f else (f + 1)%Z.

(** [round(x, 1)]: the decimal with one digit nearest to the value of the
    float [x], ties to the even digit.  The float returned is read as that
    decimal. *)
Definition round1 (x : R) : R := IZR (round_half_even (x * 10)) / 10.

(** The exponent [e] with [2^e <= |x| < 2^(e+1)], for [x <> 0]. *)
Definition binade (x : R) : Z := Int_part (ln (Rabs x) / ln 2).

(** The double nearest to the real [x], ties to the even significand
    (53 bits; neither overflow nor subnormal results). *)
Definition rnd (x : R) : R :=
  if Req_dec_T x 0 then 0
  else
    let ulp := powerRZ 2 (binade x - 52) in
    IZR (round_half_even (x / ulp)) * ulp.

(** [a / b] on ints and [x * y] on floats: the exact result, rounded to the
    nearest double. *)
Definition div_int (a b : Z) : R := rnd (IZR a / IZR b).
Definition mul (x y : R) : R := rnd (x * y).

End Float.

(** ** Strings *)

Module Str.

Definition code (c : ascii) : nat := nat_of_ascii c.

Definition between (lo hi n : nat) : bool := (lo <=? n)%nat && (n <=? hi)%nat.

(** [str.lower()] on the UTF-8 bytes: the letters A-Z, and the capital
    letters of the Latin-1 supplement (U+00C0 to U+00DE without U+00D7, the
    two-byte sequences C3 80 to C3 9E), which covers Italian text.  Other
    bytes are kept. *)
Fixpoint lower (s : string) : string :=
  match s with
  | EmptyString => EmptyString
  | String c rest =>
      if (code c =? 195)%nat then
        match rest with
        | EmptyString => String c EmptyString
        | String d rest' =>
            if between 128 158 (code d) && negb (code d =? 151)%nat
            then String c (String (ascii_of_nat (code d + 32)) (lower rest'))
            else String c (String d (lower rest'))
        end
      else if between 65 90 (code c)
      then String (ascii_of_nat (code c + 32)) (lower rest)
      else String c (lower rest)
  end.

(** [sub in s]. *)
Fixpoint contains (sub s : string) : bool :=
  String.prefix sub s ||
  match s with
  | EmptyString => false
  | String _ rest => contains sub rest
  end.

(** [any(k in s for k in keywords)]. *)
Definition any_in (keywords : list string) (s : string) : bool :=
  existsb (fun k => contains k s) keywords.

(** The characters [str.strip()] removes, among the ASCII ones. *)
Definition is_space (c : ascii) : bool :=
  between 9 13 (code c) || between 28 32 (code c).

(** The other characters [str.strip()] removes, by their UTF-8 bytes:
    U+0085 and U+00A0 (C2 85, C2 A0); U+1680 (E1 9A 80); U+2000 to U+200A,
    U+2028, U+2029 and U+202F (E2 80 80-8A, A8, A9, AF); U+205F (E2 81 9F);
    U+3000 (E3 80 80). *)
Definition wide_space2 (c d : nat) : bool :=
  (c =? 194)%nat && ((d =? 133)%nat || (d =? 160)%nat).

Definition wide_space3 (c d e : nat) : bool :=
  ((c =? 225)%nat && (d =? 154)%nat && (e =? 128)%nat)
  || ((c =? 226)%nat && (d =? 128)%nat
      && (between 128 138 e || (e =? 168)%nat || (e =? 169)%nat
          || (e =? 175)%nat))
  || ((c =? 226)%nat && (d =? 129)%nat && (e =? 159)%nat)
  || ((c =? 227)%nat && (d =? 128)%nat && (e =? 128)%nat).

(** [not s.strip()]: nothing but white space. *)
Fixpoint blank (s : string) : bool :=
  match s with
  | EmptyString => true
  | String c rest =>
      if is_space c then blank rest
      else
        match rest with
        | String d rest2 =>
            if wide_space2 (code c) (code d) then blank rest2
            else
              match rest2 with
              | String e rest3 =>
                  wide_space3 (code c) (code d) (code e) && blank rest3
              | EmptyString => false
              end
        | EmptyString => false
        end
  end.

(** [x in names] for a set of names. *)
Definition mem (x : string) (names : list string) : bool :=
  existsb (String.eqb x) names.

(** [str(i)] for a non-negative index. *)
Definition of_nat (i : nat) : string := NilZero.string_of_uint (Nat.to_uint i).

End Str.

(** ** Data model *)

(** A place object of a places reply.  [name] and [geometry.location] are
    read with [place[...]]; the other keys with [place.get].  The place
    objects are those of the Places API, which always carry a name and a
    location, and whose vicinity, when present, is a string: a reply without
    them (a KeyError in the loop over the places) is not modelled. *)
Module Place.
Record t := mk {
  name : string;
  lat : R;
  lng : R;
  vicinity : option string;
  rating : option R;
  user_ratings_total : option Z;
  place_id : option string;
  (** [None]: no [opening_hours]; [Some o]: its [open_now], if any. *)
  opening_hours : option (option bool)
}.
End Place.

(** The dict appended to [stores_data] and [fallback_stores]. *)
Module Store.
Record t := mk {
  name : string;
  address : string;
  distance_km : R;
  rating : R;
  user_ratings_total : Z;
  products_found : list string;
  products_count : Z;
  missing_products : Z;
  has_all_products : bool;
  total_items : Z;
  match_percentage : R;
  recommended : bool;
  place_id : string;
  opening_now : option bool
}.
End Store.

(** ** The outside world *)

(** What [requests.get(...).json()] and the reads of [data] give inside a
    [try]: an exception (transport, decoding, a missing key), or a status
    with a results array. *)
Inductive reply (X : Type) : Type :=
| Failed (msg : string)
| Replied (status : string) (results : list X).
Arguments Failed {X} msg.
Arguments Replied {X} status results.

Record Services := {
  geocode_json : string -> reply (R * R);
  nearbysearch_json : R -> R -> R -> string -> reply Place.t;
  textsearch_json : string -> reply Place.t
}.

(** [np.random]: one operation per call the program makes. *)
Class Generator (G : Type) := {
  random : G -> R * G;
  uniform : R -> R -> G -> R * G;
  randint : Z -> Z -> G -> Z * G
}.

(** What a run leaves behind: requests sent and messages shown. *)
Inductive event : Type :=
| GetGeocode (address : string)
| GetNearbySearch (lat lng radius : R) (keyword : string)
| GetTextSearch (query : string)
| StWarning (msg : string)
| StError (msg : string).

(** The exceptions that leave a function of [ShoppingFinder].  Those of the
    requests are caught where they are raised (see [reply]); over place
    objects as in [Place.t], the division of the percentage is the one
    operation left that can raise. *)
Inductive exn : Type := ZeroDivisionError.

Inductive result (A : Type) : Type :=
| Ok (a : A)
| Raise (e : exn).
Arguments Ok {A} a.
Arguments Raise {A} e.

Record state (G : Type) := mkState {
  gen : G;
  trace : list event
}.
Arguments mkState {G} gen trace.
Arguments gen {G} s.
Arguments trace {G} s.

(** ** A state and exception monad *)

Definition M (G A : Type) : Type := state G -> result A * state G.

Definition ret {G A} (a : A) : M G A := fun s => (Ok a, s).

Definition bind {G A B} (m : M G A) (k : A -> M G B) : M G B :=
  fun s =>
    match m s with
    | (Ok a, s') => k a s'
    | (Raise e, s') => (Raise e, s')
    end.

Definition raise {G A} (e : exn) : M G A := fun s => (Raise e, s).

Definition emit {G} (e : event) : M G unit :=
  fun s => (Ok tt, mkState (gen s) (trace s ++ [e])).

Definition draw {G A} (f : G -> A * G) : M G A :=
  fun s => let (a, g) := f (gen s) in (Ok a, mkState g (trace s)).

Declare Scope monad_scope.
Delimit Scope monad_scope with monad.
Notation "x <- m ;; k" := (bind m (fun x => k))
  (at level 61, m at next level, right associativity) : monad_scope.
Notation "m ;;; k" := (bind m (fun _ => k))
  (at level 61, right associativity) : monad_scope.
Open Scope monad_scope.

(** [a / b] on ints. *)
Definition truediv {G} (a b : Z) : M G R :=
  if (b =? 0)%Z then raise ZeroDivisionError else ret (Float.div_int a b).

Definition len {A} (l : list A) : Z := Z.of_nat (List.length l).

(** ** ShoppingFinder *)

Definition common_stores : list string :=
  [ "Esselunga"; "Conad"; "Coop"; "Carrefour"; "Lidl"; "Eurospin";
    "Pam"; "MD"; "Tigros"; "Iper"; "Iperal"; "Sigma"; "Selex";
    "Despar"; "Fresco"; "NaturaSì"; "U2"; "Bennet" ]%string.

(** The coordinates of Bergamo. *)
Definition fallback_coordinate : R * R := (45.698, 9.677).

(** [calculate_distance]: the haversine formula. *)
Definition calculate_distance (lat1 lon1 lat2 lon2 : R) : R :=
  let R_earth := 6371 in
  let lat1 := Float.radians lat1 in
  let lon1 := Float.radians lon1 in
  let lat2 := Float.radians lat2 in
  let lon2 := Float.radians lon2 in
  let dlat := lat2 - lat1 in
  let dlon := lon2 - lon1 in
  let a := (sin (dlat / 2)) ^ 2 + cos lat1 * cos lat2 * (sin (dlon / 2)) ^ 2 in
  let c := 2 * asin (sqrt a) in
  R_earth * c.

Definition discount_keywords : list string :=
  [ "lidl"; "eurospin"; "md"; "discount" ]%string.
Definition specialty_keywords : list string :=
  [ "naturasì"; "bio"; "naturale"; "fresco" ]%string.
Definition superstore_keywords : list string :=
  [ "esselunga"; "carrefour"; "coop"; "iper" ]%string.
Definition product_keywords : list string :=
  [ "bio"; "naturale"; "vegano"; "integrale" ]%string.
Definition organic_store_keywords : list string :=
  [ "naturasì"; "bio" ]%string.

(** The value of [prob] when the draw is made, in the loop body of
    [determine_available_products]. *)
Definition prob_of (store_lower item_lower : string) : R :=
  let prob := 0.7 in
  let prob :=
    if Str.any_in discount_keywords store_lower then 0.6
    else if Str.any_in specialty_keywords store_lower then 0.8
    else if Str.any_in superstore_keywords store_lower then 0.75
    else prob in
  let prob :=
    if Str.any_in product_keywords item_lower then
      if Str.any_in organic_store_keywords store_lower then 0.9 else 0.4
    else prob in
  prob.

Section Finder.

Context {G : Type} `{Generator G}.
Variable api : Services.

(** [geocode_location]. *)
Definition geocode_location (location : string) : M G (R * R) :=
  emit (GetGeocode location) ;;;
  match geocode_json api location with
  | Replied status results =>
      match String.eqb status "OK", results with
      | true, location_data :: _ => ret location_data
      | _, _ =>
          emit (StWarning ("Geocoding non riuscito per '" ++ location
                           ++ "'. Uso coordinate predefinite.")%string) ;;;
          ret fallback_coordinate
      end
  | Failed e =>
      emit (StError ("Errore geocoding: " ++ e)%string) ;;;
      ret fallback_coordinate
  end.

(** [search_places_nearby]. *)
Definition search_places_nearby (lat lng radius : R) (keyword : string)
  : M G (list Place.t) :=
  emit (GetNearbySearch lat lng radius keyword) ;;;
  match nearbysearch_json api lat lng radius keyword with
  | Replied status results =>
      if String.eqb status "OK" then ret results
      else emit (StWarning ("Places API error: " ++ status)%string) ;;; ret []
  | Failed e =>
      emit (StError ("Errore ricerca negozi: " ++ e)%string) ;;; ret []
  end.

(** [search_places_text]. *)
Definition search_places_text (query location : string) : M G (list Place.t) :=
  emit (GetTextSearch query) ;;;
  match textsearch_json api query with
  | Replied status results =>
      if String.eqb status "OK" then ret results else ret []
  | Failed _ => ret []
  end.

(** The [for item in items] loop of [determine_available_products]. *)
Fixpoint available_loop (store_lower : string) (items : list string)
  (available_products : list string) : M G (list string) :=
  match items with
  | [] => ret available_products
  | item :: rest =>
      let item_lower := Str.lower item in
      let prob := prob_of store_lower item_lower in
      u <- draw random ;;
      if Float.ltb u prob
      then available_loop store_lower rest (available_products ++ [item])
      else available_loop store_lower rest available_products
  end.

(** [determine_available_products]. *)
Definition determine_available_products (store_name : string)
  (items : list string) : M G (list string) :=
  let store_lower := Str.lower store_name in
  available_loop store_lower items [].

(** The [for i, store_name in enumerate(...)] loop of
    [get_fallback_stores]. *)
Fixpoint fallback_loop (items : list string) (user_lat user_lon max_distance_km : R)
  (names : list string) (i : nat) (fallback_stores : list Store.t)
  : M G (list Store.t) :=
  match names with
  | [] => ret fallback_stores
  | store_name :: rest =>
      dlat <- draw (uniform (-0.05) 0.05) ;;
      let store_lat := user_lat + dlat in
      dlng <- draw (uniform (-0.05) 0.05) ;;
      let store_lng := user_lon + dlng in
      let distance := calculate_distance user_lat user_lon store_lat store_lng in
      if Float.leb distance max_distance_km then
        available_products <- determine_available_products store_name items ;;
        let match_count := len available_products in
        let missing_products := (len items - match_count)%Z in
        let has_all_products := (match_count =? len items)%Z in
        rating <- draw (uniform 3.8 4.6) ;;
        reviews <- draw (randint 100 1500) ;;
        ratio <- truediv match_count (len items) ;;
        fallback_loop items user_lat user_lon max_distance_km rest (S i)
          (fallback_stores ++
           [ {| Store.name := store_name;
                Store.address := "Info non disponibili";
                Store.distance_km := Float.round1 distance;
                Store.rating := Float.round1 rating;
                Store.user_ratings_total := reviews;
                Store.products_found := available_products;
                Store.products_count := match_count;
                Store.missing_products := missing_products;
                Store.has_all_products := has_all_products;
                Store.total_items := len items;
                Store.match_percentage := Float.round1 (Float.mul ratio 100);
                Store.recommended := has_all_products;
                Store.place_id := ("fallback_" ++ Str.of_nat i)%string;
                Store.opening_now := Some true |} ])
      else
        fallback_loop items user_lat user_lon max_distance_km rest (S i)
          fallback_stores
  end.

(** [get_fallback_stores]. *)
Definition get_fallback_stores (items : list string) (location : string)
  (user_lat user_lon max_distance_km : R) : M G (list Store.t) :=
  fallback_loop items user_lat user_lon max_distance_km
    (firstn 6 common_stores) 0 [].

(** The address of a live record. *)
Definition address_of (place : Place.t) : string :=
  let address :=
    match Place.vicinity place with
    | Some v => v
    | None => "Info non disponibili"%string
    end in
  if String.eqb address "Indirizzo non disponibile" || Str.blank address
  then "Info non disponibili"%string
  else address.

(** The [for store_name in self.common_stores[:3]] loop of
    [search_stores]. *)
Fixpoint text_loop (location : string) (names : list string)
  (places : list Place.t) : M G (list Place.t) :=
  match names with
  | [] => ret places
  | store_name :: rest =>
      text_results <-
        search_places_text (store_name ++ " " ++ location)%string location ;;
      text_loop location rest (places ++ text_results)
  end.

(** The [for place in places] loop of [search_stores]. *)
Fixpoint place_loop (items : list string) (user_lat user_lon max_distance_km : R)
  (places : list Place.t) (stores_data : list Store.t)
  (store_names_processed : list string) : M G (list Store.t) :=
  match places with
  | [] => ret stores_data
  | place :: rest =>
      let store_name := Place.name place in
      if Str.mem store_name store_names_processed then
        place_loop items user_lat user_lon max_distance_km rest stores_data
          store_names_processed
      else
        let store_names_processed := store_name :: store_names_processed in
        let place_lat := Place.lat place in
        let place_lng := Place.lng place in
        let distance :=
          calculate_distance user_lat user_lon place_lat place_lng in
        if Float.leb distance max_distance_km then
          available_products <- determine_available_products store_name items ;;
          let match_count := len available_products in
          let missing_products := (len items - match_count)%Z in
          let has_all_products := (match_count =? len items)%Z in
          let address := address_of place in
          ratio <- truediv match_count (len items) ;;
          place_loop items user_lat user_lon max_distance_km rest
            (stores_data ++
             [ {| Store.name := store_name;
                  Store.address := address;
                  Store.distance_km := Float.round1 distance;
                  Store.rating :=
                    match Place.rating place with Some r => r | None => 4.0 end;
                  Store.user_ratings_total :=
                    match Place.user_ratings_total place with
                    | Some n => n
                    | None => 100%Z
                    end;
                  Store.products_found := available_products;
                  Store.products_count := match_count;
                  Store.missing_products := missing_products;
                  Store.has_all_products := has_all_products;
                  Store.total_items := len items;
                  Store.match_percentage := Float.round1 (Float.mul ratio 100);
                  Store.recommended := has_all_products;
                  Store.place_id :=
                    match Place.place_id place with
                    | Some p => p
                    | None => ""%string
                    end;
                  Store.opening_now :=
                    match Place.opening_hours place with
                    | Some o => o
                    | None => None
                    end |} ])
            store_names_processed
        else
          place_loop items user_lat user_lon max_distance_km rest stores_data
            store_names_processed
  end.

(** [search_stores]. *)
Definition search_stores (items : list string) (location : string)
  (max_distance_km : R) : M G (list Store.t) :=
  origin <- geocode_location location ;;
  let user_lat := fst origin in
  let user_lon := snd origin in
  places <-
    search_places_nearby user_lat user_lon (max_distance_km * 1000)
      "supermarket" ;;
  places <-
    (if (len places <? 3)%Z
     then text_loop location (firstn 3 common_stores) places
     else ret places) ;;
  stores_data <-
    place_loop items user_lat user_lon max_distance_km places [] [] ;;
  if (len stores_data <? 3)%Z then
    fallback <-
      get_fallback_stores items location user_lat user_lon max_distance_km ;;
    ret (stores_data ++ fallback)
  else ret stores_data.

End Finder.

(** [main]: the [disabled] argument of the search button. *)
Definition search_button_disabled (items : list string) (location : string)
  : bool :=
  (len items =? 0)%Z || Str.blank location.

(** * Part II: specification vocabulary *)

(** The geocoding call failed: an exception inside the [try], a status other
    than OK, or an empty results array. *)
Definition geocoding_failed (r : reply (R * R)) : Prop :=
  match r with
  | Failed _ => True
  | Replied status results => status <> "OK"%string \/ results = []
  end.

(** A text or nearby search call failed: an exception inside the [try], or
    a status other than OK. *)
Definition search_failed (r : reply Place.t) : Prop :=
  match r with
  | Failed _ => True
  | Replied status _ => status <> "OK"%string
  end.

(** The availability probability as the specification words it: the
    organic-item override, else the store class. *)
Definition stated_probability (store_name item : string) : R :=
  let store := Str.lower store_name in
  if Str.any_in product_keywords (Str.lower item) then
    if Str.any_in organic_store_keywords store then 0.9 else 0.4
  else if Str.any_in discount_keywords store then 0.6
  else if Str.any_in specialty_keywords store then 0.8
  else if Str.any_in superstore_keywords store then 0.75
  else 0.7.

(** The items whose draw is below the stated probability, in order. *)
Fixpoint stated_selection (store_name : string) (items : list string)
  (us : list R) : list string :=
  match items, us with
  | item :: items', u :: us' =>
      if Float.ltb u (stated_probability store_name item)
      then item :: stated_selection store_name items' us'
      else stated_selection store_name items' us'
  | _, _ => []
  end.

(** [n] successive [np.random.random()] draws. *)
Fixpoint draws {G} `{Generator G} (n : nat) (g : G) : list R * G :=
  match n with
  | O => ([], g)
  | S n' =>
      let (u, g1) := random g in
      let (us, g2) := draws n' g1 in
      (u :: us, g2)
  end.

(** The percentage of the list a record found, as the code computes it:
    [round((count / total) * 100, 1)], each operation rounded to a double. *)
Definition percentage (count total : Z) : R :=
  Float.round1 (Float.mul (Float.div_int count total) 100).

(** The invariant of a record built for the item list [items]. *)
Definition record_consistent (items : list string) (r : Store.t) : Prop :=
  (Store.products_count r + Store.missing_products r = Store.total_items r)%Z
  /\ Store.total_items r = len items
  /\ (Store.has_all_products r = true
      <-> Store.products_count r = Store.total_items r)
  /\ Store.match_percentage r =
     Float.round1
       (Float.mul
          (Float.div_int (Store.products_count r) (Store.total_items r)) 100).

(** [r] was built for a location within [max_distance_km] of the origin. *)
Definition within_range (user_lat user_lon max_distance_km : R) (r : Store.t)
  : Prop :=
  exists lat lng,
    Store.distance_km r =
      Float.round1 (calculate_distance user_lat user_lon lat lng)
    /\ calculate_distance user_lat user_lon lat lng <= max_distance_km.

(** [r] was built from the place [p]. *)
Definition built_from (user_lat user_lon : R) (p : Place.t) (r : Store.t)
  : Prop :=
  Store.name r = Place.name p
  /\ Store.distance_km r =
     Float.round1
       (calculate_distance user_lat user_lon (Place.lat p) (Place.lng p)).

(** [r] is a record of [p] for the item list [items]. *)
Definition made_from (items : list string) (user_lat user_lon : R)
  (p : Place.t) (r : Store.t) : Prop :=
  built_from user_lat user_lon p r /\ record_consistent items r.

(** The distance of a place from the origin. *)
Definition distance_to (user_lat user_lon : R) (p : Place.t) : R :=
  calculate_distance user_lat user_lon (Place.lat p) (Place.lng p).

(** The places the aggregation loop keeps: those whose name was not seen
    before and that lie within range. *)
Fixpoint kept (user_lat user_lon max_distance_km : R) (places : list Place.t)
  (seen : list string) : list Place.t :=
  match places with
  | [] => []
  | p :: rest =>
      if Str.mem (Place.name p) seen then
        kept user_lat user_lon max_distance_km rest seen
      else if Float.leb (distance_to user_lat user_lon p) max_distance_km then
        p :: kept user_lat user_lon max_distance_km rest (Place.name p :: seen)
      else kept user_lat user_lon max_distance_km rest (Place.name p :: seen)
  end.

(** How many records carry the name [n]. *)
Definition count_name (n : string) (stores : list Store.t) : nat :=
  List.length (filter (fun r => String.eqb (Store.name r) n) stores).

(** The first place of the list named [n]. *)
Definition first_named (n : string) (places : list Place.t) : option Place.t :=
  find (fun p => String.eqb (Place.name p) n) places.

(** [l1] is [l2] with some elements left out. *)
Inductive subseq {A : Type} : list A -> list A -> Prop :=
| subseq_nil : subseq [] []
| subseq_skip x l1 l2 : subseq l1 l2 -> subseq l1 (x :: l2)
| subseq_take x l1 l2 : subseq l1 l2 -> subseq (x :: l1) (x :: l2).

(** Whether one of the next [n] perturbed coordinates drawn from [g] lies
    within range, when no draw is made in between (the item list is
    empty). *)
Fixpoint perturbed_in_range {G} `{Generator G}
  (user_lat user_lon max_distance_km : R) (n : nat) (g : G) : bool :=
  match n with
  | O => false
  | S n' =>
      let (dlat, g1) := uniform (-0.05) 0.05 g in
      let (dlng, g2) := uniform (-0.05) 0.05 g1 in
      Float.leb
        (calculate_distance user_lat user_lon (user_lat + dlat) (user_lon + dlng))
        max_distance_km
      || perturbed_in_range user_lat user_lon max_distance_km n' g2
  end.

(** The results of a places reply, as [search_places_text] reads it. *)
Definition ok_results (r : reply Place.t) : list Place.t :=
  match r with
  | Replied status results => if String.eqb status "OK" then results else []
  | Failed _ => []
  end.

(** The first stage of [search_stores]: the origin and the place list the
    aggregation loop runs over. *)
Definition place_search {G} `{Generator G} (api : Services)
  (location : string) (max_distance_km : R) : M G (R * R * list Place.t) :=
  origin <- geocode_location api location ;;
  places <-
    search_places_nearby api (fst origin) (snd origin) (max_distance_km * 1000)
      "supermarket" ;;
  places <-
    (if (len places <? 3)%Z
     then text_loop api location (firstn 3 common_stores) places
     else ret places) ;;
  ret (origin, places).

(** The second stage of [search_stores]: the aggregation loop and the
    fallback step. *)
Definition aggregate {G} `{Generator G} (items : list string)
  (location : string) (max_distance_km : R) (found : R * R * list Place.t)
  : M G (list Store.t) :=
  let user_lat := fst (fst found) in
  let user_lon := snd (fst found) in
  stores_data <-
    place_loop items user_lat user_lon max_distance_km (snd found) [] [] ;;
  if (len stores_data <? 3)%Z then
    fallback <-
      get_fallback_stores items location user_lat user_lon max_distance_km ;;
    ret (stores_data ++ fallback)
  else ret stores_data.

(** The three text queries of [search_stores]. *)
Definition text_queries (location : string) : list string :=
  map (fun store_name => (store_name ++ " " ++ location)%string)
    (firstn 3 common_stores).

(** The record [search_stores] appends for [place], given the products
    drawn as available. *)
Definition live_record (items : list string) (user_lat user_lon : R)
  (place : Place.t) (available_products : list string) : Store.t :=
  let match_count := len available_products in
  {| Store.name := Place.name place;
     Store.address := address_of place;
     Store.distance_km :=
       Float.round1
         (calculate_distance user_lat user_lon
            (Place.lat place) (Place.lng place));
     Store.rating :=
       match Place.rating place with Some r => r | None => 4.0 end;
     Store.user_ratings_total :=
       match Place.user_ratings_total place with
       | Some n => n
       | None => 100%Z
       end;
     Store.products_found := available_products;
     Store.products_count := match_count;
     Store.missing_products := (len items - match_count)%Z;
     Store.has_all_products := (match_count =? len items)%Z;
     Store.total_items := len items;
     Store.match_percentage :=
       Float.round1 (Float.mul (Float.div_int match_count (len items)) 100);
     Store.recommended := (match_count =? len items)%Z;
     Store.place_id :=
       match Place.place_id place with Some p => p | None => ""%string end;
     Store.opening_now :=
       match Place.opening_hours place with Some o => o | None => None end |}.

(** The record [get_fallback_stores] appends for the [i]-th chain name, given
    the perturbed coordinate and the values drawn. *)
Definition fallback_record (items : list string) (user_lat user_lon : R)
  (i : nat) (store_name : string) (store_lat store_lng : R)
  (available_products : list string) (rating : R) (reviews : Z) : Store.t :=
  let match_count := len available_products in
  {| Store.name := store_name;
     Store.address := "Info non disponibili";
     Store.distance_km :=
       Float.round1 (calculate_distance user_lat user_lon store_lat store_lng);
     Store.rating := Float.round1 rating;
     Store.user_ratings_total := reviews;
     Store.products_found := available_products;
     Store.products_count := match_count;
     Store.missing_products := (len items - match_count)%Z;
     Store.has_all_products := (match_count =? len items)%Z;
     Store.total_items := len items;
     Store.match_percentage :=
       Float.round1 (Float.mul (Float.div_int match_count (len items)) 100);
     Store.recommended := (match_count =? len items)%Z;
     Store.place_id := ("fallback_" ++ Str.of_nat i)%string;
     Store.opening_now := Some true |}.

(** A generator that replays a tape of values, one per call. *)
Definition replay_random (g : list R) : R * list R :=
  match g with u :: g' => (u, g') | [] => (0, []) end.
Definition replay_uniform (a b : R) (g : list R) : R * list R :=
  match g with u :: g' => (u, g') | [] => (a, []) end.
Definition replay_randint (lo hi : Z) (g : list R) : Z * list R :=
  (lo, tl g).

#[export] Instance Replay : Generator (list R) := {
  random := replay_random;
  uniform := replay_uniform;
  randint := replay_randint
}.

(** A perturbed coordinate the fallback generator keeps: the position of
    the chain name in the list, the name, and the coordinate. *)
Record Site := {
  site_index : nat;
  site_name : string;
  site_lat : R;
  site_lng : R
}.

(** The perturbed coordinates that [get_fallback_stores] draws from [g] for
    [names] and that lie within range, in order.  After a coordinate within
    range the generator has made the draws of its record: one per item, the
    rating, the number of reviews. *)
Fixpoint fallback_sites {G} `{Generator G} (items : list string)
  (user_lat user_lon max_distance_km : R) (names : list string) (i : nat)
  (g : G) : list Site :=
  match names with
  | [] => []
  | store_name :: rest =>
      let lat_draw := uniform (-0.05) 0.05 g in
      let lng_draw := uniform (-0.05) 0.05 (snd lat_draw) in
      let store_lat := user_lat + fst lat_draw in
      let store_lng := user_lon + fst lng_draw in
      if Float.leb
           (calculate_distance user_lat user_lon store_lat store_lng)
           max_distance_km
      then
        let item_draws := draws (List.length items) (snd lng_draw) in
        let rating_draw := uniform 3.8 4.6 (snd item_draws) in
        let reviews_draw := randint 100 1500 (snd rating_draw) in
        {| site_index := i; site_name := store_name;
           site_lat := store_lat; site_lng := store_lng |}
        :: fallback_sites items user_lat user_lon max_distance_km rest (S i)
             (snd reviews_draw)
      else
        fallback_sites items user_lat user_lon max_distance_km rest (S i)
          (snd lng_draw)
  end.

(** The coordinate of [x] is at most [max_distance_km] from the origin. *)
Definition site_in_range (user_lat user_lon max_distance_km : R) (x : Site)
  : Prop :=
  calculate_distance user_lat user_lon (site_lat x) (site_lng x)
  <= max_distance_km.

(** [r] is the fallback record of the coordinate [x]. *)
Definition fallback_built (items : list string) (user_lat user_lon : R)
  (x : Site) (r : Store.t) : Prop :=
  exists available rating reviews,
    r = fallback_record items user_lat user_lon (site_index x) (site_name x)
          (site_lat x) (site_lng x) available rating reviews.

(** ** Sample inputs for the concrete runs *)

(** A place object with a name and a location only. *)
Definition place_at (name : string) (lat lng : R) : Place.t :=
  Place.mk name lat lng None None None None None.

(** Services that locate every address at [origin], find [nearby] around
    it, and find nothing by text. *)
Definition services_with (origin : R * R) (nearby : list Place.t) : Services :=
  {| geocode_json := fun _ => Replied "OK" [origin];
     nearbysearch_json := fun _ _ _ _ => Replied "OK" nearby;
     textsearch_json := fun _ => Replied "ZERO_RESULTS" [] |}.

(** Services that time out. *)
Definition offline : Services :=
  {| geocode_json := fun _ => Failed "timed out";
     nearbysearch_json := fun _ _ _ _ => Failed "timed out";
     textsearch_json := fun _ => Failed "timed out" |}.

Definition pasta_latte : list string := ["pasta"; "latte"]%string.

(** Two branches of one chain, 1.1 km and 2.2 km north of (45, 9). *)
Definition two_branches : list Place.t :=
  [ place_at "Esselunga" 45.01 9; place_at "Esselunga" 45.02 9 ].

(** Two branches of one chain, 111 km and 222 km north of (45, 9). *)
Definition two_far_branches : list Place.t :=
  [ place_at "Conad" 46 9; place_at "Conad" 47 9 ].

(** A branch 111 km north of (45, 9), then one of the same chain 111 m
    north. *)
Definition far_then_near : list Place.t :=
  [ place_at "Conad" 46 9; place_at "Conad" 45.001 9 ].

(** The draws of the first run: two items for the live store; a fallback
    store 1.1 km north with its items, rating and review count; five
    fallback stores 5.4 km north. *)
Definition tape1 : list R :=
  [ 0.5; 0.9;
    0.01; 0; 0.1; 0.2; 4.2; 0;
    0.049; 0; 0.049; 0; 0.049; 0; 0.049; 0; 0.049; 0 ].

(** Six fallback stores 4.4 km north. *)
Definition tape_far : list R :=
  [ 0.04; 0; 0.04; 0; 0.04; 0; 0.04; 0; 0.04; 0; 0.04; 0 ].

Definition sample_api : Services := services_with (45, 9) two_branches.
Definition shadow_api : Services := services_with (45, 9) far_then_near.

Definition s0 : state (list R) := mkState tape1 [].
Definition s_far : state (list R) := mkState tape_far [].

(** The requests of a search for Bergamo. *)
Definition searched (max_distance_km : R) : list event :=
  [ GetGeocode "Bergamo";
    GetNearbySearch 45 9 (max_distance_km * 1000) "supermarket";
    GetTextSearch "Esselunga Bergamo"; GetTextSearch "Conad Bergamo";
    GetTextSearch "Coop Bergamo" ].

(** * Part II-b: the summary, the charts and the page *)

(** ** analyze_results *)

Module Summary.
Record t := mk {
  total_stores : Z;
  total_products : Z;
  stores_with_all_products : Z;
  avg_products_per_store : R;
  max_products_in_store : Z;
  min_products_in_store : Z;
  avg_distance : R;
  avg_rating : R
}.
End Summary.

(** [Series.mean()]. *)
Definition mean (column : list R) : R :=
  fold_right Rplus 0 column / IZR (len column).

(** [Series.max()] and [Series.min()] of a column with first entry [x]. *)
Definition column_max (x : Z) (rest : list Z) : Z := fold_left Z.max rest x.
Definition column_min (x : Z) (rest : list Z) : Z := fold_left Z.min rest x.

(** [analyze_results]: [None] for no store, else the summary and the
    frame (the records, row by row). *)
Definition analyze_results (stores_data : list Store.t) (total_items : Z)
  : option (Summary.t * list Store.t) :=
  match stores_data with
  | [] => None
  | first :: rest =>
      let df := stores_data in
      Some
        ({| Summary.total_stores := len stores_data;
            Summary.total_products := total_items;
            Summary.stores_with_all_products :=
              len (filter Store.has_all_products stores_data);
            Summary.avg_products_per_store :=
              Float.round1
                (mean (map (fun r => IZR (Store.products_count r)) df));
            Summary.max_products_in_store :=
              column_max (Store.products_count first)
                (map Store.products_count rest);
            Summary.min_products_in_store :=
              column_min (Store.products_count first)
                (map Store.products_count rest);
            Summary.avg_distance :=
              Float.round1 (mean (map Store.distance_km df));
            Summary.avg_rating :=
              Float.round1 (mean (map Store.rating df)) |},
         df)
  end.

(** ** create_visualizations: the categories of the pie chart *)

(** [str(n)] for an int. *)
Definition str_of_int (n : Z) : string := NilZero.string_of_int (Z.to_int n).

(** The label chosen for one entry of [df['missing_products']]. *)
Definition missing_category (missing : Z) : string :=
  if (missing =? 0)%Z then "Tutti i prodotti"
  else if (missing =? 1)%Z then "Manca 1 prodotto"
  else if (missing =? 2)%Z then "Mancano 2 prodotti"
  else ("Mancano " ++ str_of_int missing ++ " prodotti")%string.

(** The colour chosen for one entry of [df['missing_products']]. *)
Definition scatter_color (missing : Z) : string :=
  if (missing =? 0)%Z then "#10B981"
  else if (missing =? 1)%Z then "#F59E0B"
  else if (missing =? 2)%Z then "#EF4444"
  else "#6B7280".

(** [missing_categories] after its loop. *)
Definition missing_categories (df : list Store.t) : list string :=
  map (fun r => missing_category (Store.missing_products r)) df.

(** [pd.Series(labels).value_counts()] read at one label (0 when the
    label is absent). *)
Definition value_count (label : string) (labels : list string) : Z :=
  len (filter (String.eqb label) labels).

(** ** main: the result cards *)

Definition recommended_stores (stores_data : list Store.t) : list Store.t :=
  filter Store.recommended stores_data.

Definition other_stores (stores_data : list Store.t) : list Store.t :=
  filter (fun s => negb (Store.recommended s)) stores_data.

(** [sorted(l, key=lambda x: x['products_count'], reverse=True)]: greater
    counts first, equal counts in their order in [l]. *)
Fixpoint insert_by_count (x : Store.t) (l : list Store.t) : list Store.t :=
  match l with
  | [] => [x]
  | y :: l' =>
      if (Store.products_count y <=? Store.products_count x)%Z
      then x :: y :: l'
      else y :: insert_by_count x l'
  end.

Definition sorted_by_count (l : list Store.t) : list Store.t :=
  fold_right insert_by_count [] l.

Definition other_stores_sorted (stores_data : list Store.t) : list Store.t :=
  sorted_by_count (other_stores stores_data).

(** ** main: the search button *)

(** [st.session_state.search_results]; [timestamp] in seconds. *)
Module Results.
Record t := mk {
  stores : list Store.t;
  summary : Summary.t;
  dataframe : list Store.t;
  location : string;
  total_items : Z;
  timestamp : Z
}.
End Results.

(** What the page shows after a click: [st.success] with the number of
    stores, [st.error] for no store, [st.error] with the text of an
    exception. *)
Inductive feedback : Type :=
| Found (stores : Z)
| NothingFound
| SearchError (text : string).

(** [str(e)]. *)
Definition exn_text (e : exn) : string :=
  match e with
  | ZeroDivisionError => "division by zero"
  end.

(** The body of [if st.button(...)]: the new [search_results], the message
    shown, and the state.  Unpacking [None] into [summary, df] is a
    TypeError, caught like any exception. *)
Definition search_action {G} `{Generator G} (api : Services)
  (items : list string) (location : string) (max_distance : R) (now : Z)
  (search_results : option Results.t) (s : state G)
  : option Results.t * feedback * state G :=
  match search_stores api items location max_distance s with
  | (Ok stores_data, s') =>
      match stores_data with
      | _ :: _ =>
          match analyze_results stores_data (len items) with
          | Some (summary, df) =>
              (Some {| Results.stores := stores_data;
                       Results.summary := summary;
                       Results.dataframe := df;
                       Results.location := location;
                       Results.total_items := len items;
                       Results.timestamp := now |},
               Found (len stores_data), s')
          | None =>
              (search_results,
               SearchError
                 ("Errore durante la ricerca: "
                  ++ "cannot unpack non-iterable NoneType object"), s')
          end
      | [] => (search_results, NothingFound, s')
      end
  | (Raise e, s') =>
      (search_results,
       SearchError ("Errore durante la ricerca: " ++ exn_text e), s')
  end.

(** [if st.button(..., disabled=...)]: the body runs when the button is
    clicked, which a disabled button never is; otherwise the page keeps its
    results and shows no message. *)
Definition search_button {G} `{Generator G} (clicked : bool) (api : Services)
  (items : list string) (location : string) (max_distance : R) (now : Z)
  (search_results : option Results.t) (s : state G)
  : option Results.t * option feedback * state G :=
  if clicked && negb (search_button_disabled items location) then
    let '(results, shown, s') :=
      search_action api items location max_distance now search_results s in
    (results, Some shown, s')
  else (search_results, None, s).

(** * Part II-c: more specification vocabulary *)

(** The angle at the centre of the sphere between two coordinates, by the
    law of cosines. *)
Definition central_angle (lat1 lon1 lat2 lon2 : R) : R :=
  acos (sin (Float.radians lat1) * sin (Float.radians lat2)
        + cos (Float.radians lat1) * cos (Float.radians lat2)
          * cos (Float.radians lon2 - Float.radians lon1)).

(** The value of [a] in [calculate_distance]. *)
Definition haversine_term (lat1 lon1 lat2 lon2 : R) : R :=
  (sin ((Float.radians lat2 - Float.radians lat1) / 2)) ^ 2
  + cos (Float.radians lat1) * cos (Float.radians lat2)
    * (sin ((Float.radians lon2 - Float.radians lon1) / 2)) ^ 2.

(** Requests, as opposed to messages. *)
Definition is_request (e : event) : bool :=
  match e with
  | GetGeocode _ | GetNearbySearch _ _ _ _ | GetTextSearch _ => true
  | StWarning _ | StError _ => false
  end.

(** The coordinate [geocode_location] settles on. *)
Definition located (api : Services) (location : string) : R * R :=
  match geocode_json api location with
  | Replied status (location_data :: _) =>
      if String.eqb status "OK" then location_data else fallback_coordinate
  | _ => fallback_coordinate
  end.

(** A record of the loop over the places: the record of a searched place
    within range, for some of the items. *)
Definition live_shape (items : list string) (origin : R * R)
  (places : list Place.t) (max_distance_km : R) (r : Store.t) : Prop :=
  exists p available,
    In p places
    /\ distance_to (fst origin) (snd origin) p <= max_distance_km
    /\ subseq available items
    /\ r = live_record items (fst origin) (snd origin) p available.

(** A record of the fallback generator: the record of the [i]-th chain name
    at a coordinate within range, for some of the items. *)
Definition fallback_shape (items : list string) (origin : R * R)
  (max_distance_km : R) (r : Store.t) : Prop :=
  exists i n lat lng available rating reviews,
    nth_error (firstn 6 common_stores) i = Some n
    /\ calculate_distance (fst origin) (snd origin) lat lng <= max_distance_km
    /\ subseq available items
    /\ r = fallback_record items (fst origin) (snd origin) i n lat lng
             available rating reviews.

(** Greater counts first. *)
Definition count_ge (a b : Store.t) : Prop :=
  (Store.products_count b <= Store.products_count a)%Z.

(** The two records of the first sample run. *)
Definition sample_live_record : Store.t :=
  live_record pasta_latte 45 9 (place_at "Esselunga" 45.01 9) ["pasta"%string].
Definition sample_fallback_record : Store.t :=
  fallback_record pasta_latte 45 9 0 "Esselunga" (45 + 0.01) (9 + 0)
    ["pasta"; "latte"]%string 4.2 100.

(** The fields that live and fallback records fill in the same way. *)
Definition counted_for (items : list string) (r : Store.t) : Prop :=
  exists available,
    subseq available items
    /\ Store.products_found r = available
    /\ Store.products_count r = len available
    /\ Store.missing_products r = (len items - len available)%Z
    /\ Store.has_all_products r = (len available =? len items)%Z
    /\ Store.recommended r = (len available =? len items)%Z
    /\ Store.total_items r = len items
    /\ Store.match_percentage r
       = Float.round1 (Float.mul (Float.div_int (len available) (len items)) 100)
    /\ exists d, 0 <= d /\ Store.distance_km r = Float.round1 d.

(** Messages only, no request. *)
Definition notices_only (events : list event) : Prop :=
  filter is_request events = [].


(** A vicinity made of one no-break space (U+00A0), and one made of an
    ideographic space (U+3000) between two ASCII spaces. *)
Definition no_break_space : string :=
  String (ascii_of_nat 194) (String (ascii_of_nat 160) EmptyString).
Definition wide_blank : string :=
  String (ascii_of_nat 32)
    (String (ascii_of_nat 227)
       (String (ascii_of_nat 128)
          (String (ascii_of_nat 128)
             (String (ascii_of_nat 32) EmptyString)))).

(** * Part III: lemmas and theorems *)

(** ** Floats *)

Lemma leb_le a b : Float.leb a b = true <-> a <= b.
Proof. unfold Float.leb; destruct (Rle_dec a b); split; intros; easy. Qed.

Lemma leb_gt a b : Float.leb a b = false <-> b < a.
Proof.
  unfold Float.leb; destruct (Rle_dec a b); split; intros; try easy; lra.
Qed.

Lemma ltb_lt a b : Float.ltb a b = true <-> a < b.
Proof. unfold Float.ltb; destruct (Rlt_dec a b); split; intros; easy. Qed.

Lemma ltb_ge a b : Float.ltb a b = false <-> b <= a.
Proof.
  unfold Float.ltb; destruct (Rlt_dec a b); split; intros; try easy; lra.
Qed.

(** ** Rounding *)

Lemma ln2_pos : 0 < ln 2.
Proof. pose proof ln_lt_2. lra. Qed.

Lemma powerRZ_2_exp (e : Z) : powerRZ 2 e = exp (IZR e * ln 2).
Proof. rewrite powerRZ_Rpower by lra. reflexivity. Qed.

Lemma powerRZ_2_mono (n m : Z) : (n <= m)%Z -> powerRZ 2 n <= powerRZ 2 m.
Proof.
  intros Hnm. rewrite !powerRZ_2_exp.
  destruct (Z.eq_dec n m) as [-> | Hne]; [lra |].
  left. apply exp_increasing.
  apply Rmult_lt_compat_r; [apply ln2_pos |]. apply IZR_lt. lia.
Qed.

Lemma binade_bounds (x : R) :
  x <> 0 ->
  powerRZ 2 (Float.binade x) <= Rabs x < powerRZ 2 (Float.binade x + 1).
Proof.
  intros Hx. unfold Float.binade.
  assert (Ha : 0 < Rabs x) by (apply Rabs_pos_lt; exact Hx).
  set (a := Rabs x) in *.
  pose proof (base_Int_part (ln a / ln 2)) as [H1 H2].
  set (e := Int_part (ln a / ln 2)) in *.
  pose proof ln2_pos as Hl.
  assert (Hq : ln a = ln a / ln 2 * ln 2) by (field; lra).
  rewrite !powerRZ_2_exp, plus_IZR.
  pose proof (exp_ln a Ha) as Ea.
  split.
  - rewrite <- Ea.
    destruct (Req_dec (IZR e * ln 2) (ln a)) as [-> | Hne]; [lra |].
    left. apply exp_increasing. nra.
  - rewrite <- Ea at 1. apply exp_increasing. nra.
Qed.

Lemma binade_unique (e : Z) (x : R) :
  powerRZ 2 e <= Rabs x < powerRZ 2 (e + 1) -> Float.binade x = e.
Proof.
  intros [H1 H2].
  assert (Hx : x <> 0).
  { intros ->. rewrite Rabs_R0 in H1.
    pose proof (powerRZ_lt 2 e ltac:(lra)). lra. }
  pose proof (binade_bounds x Hx) as [B1 B2].
  set (b := Float.binade x) in *.
  destruct (Z.lt_trichotomy b e) as [Hlt | [Heq | Hgt]]; [| exact Heq |].
  - pose proof (powerRZ_2_mono (b + 1) e ltac:(lia)). lra.
  - pose proof (powerRZ_2_mono (e + 1) b ltac:(lia)). lra.
Qed.

Lemma round_half_even_between (a b : Z) (x : R) :
  IZR a <= x <= IZR b ->
  (a <= Float.round_half_even x <= b)%Z.
Proof.
  intros [Ha Hb]. unfold Float.round_half_even.
  pose proof (base_Int_part x) as [Hf1 Hf2].
  pose proof (base_fp x) as [Hr1 Hr2].
  pose proof (Rplus_Int_part_frac_part x) as Hx.
  set (f := Int_part x) in *. set (r := frac_part x) in *.
  assert (Haf : (a <= f)%Z).
  { apply Z.lt_succ_r. apply lt_IZR. rewrite succ_IZR. lra. }
  assert (Hfb : (f <= b)%Z) by (apply le_IZR; lra).
  assert (Hup : 0 < r -> (f + 1 <= b)%Z).
  { intros Hpos. apply Z.le_succ_l. apply lt_IZR. lra. }
  destruct (Rlt_dec r (1 / 2)); [lia |].
  destruct (Rlt_dec (1 / 2) r).
  - specialize (Hup ltac:(lra)). lia.
  - destruct (Z.even f); [lia |].
    specialize (Hup ltac:(lra)). lia.
Qed.

Lemma round_half_even_near (n : Z) (y : R) :
  IZR n - 1 / 2 < y < IZR n + 1 / 2 -> Float.round_half_even y = n.
Proof.
  intros [H1 H2]. unfold Float.round_half_even.
  destruct (Rle_dec (IZR n) y) as [Hge | Hlt].
  - assert (Hf : n = Int_part y) by (apply Int_part_spec; lra).
    pose proof (Rplus_Int_part_frac_part y) as Hy. rewrite <- Hf in *.
    destruct (Rlt_dec (frac_part y) (1 / 2)); [reflexivity | lra].
  - assert (Hf : (n - 1)%Z = Int_part y).
    { apply Int_part_spec. rewrite minus_IZR. lra. }
    pose proof (Rplus_Int_part_frac_part y) as Hy. rewrite <- Hf in *.
    rewrite minus_IZR in Hy.
    destruct (Rlt_dec (frac_part y) (1 / 2)); [lra |].
    destruct (Rlt_dec (1 / 2) (frac_part y)); [lia | lra].
Qed.

Lemma round_half_even_IZR (n : Z) : Float.round_half_even (IZR n) = n.
Proof. apply round_half_even_near. lra. Qed.

(** The value of [rnd] at a real whose binade and nearest multiple of the
    unit in the last place are known. *)
Lemma rnd_near (e n : Z) (x : R) :
  powerRZ 2 e <= Rabs x < powerRZ 2 (e + 1) ->
  IZR n - 1 / 2 < x / powerRZ 2 (e - 52) < IZR n + 1 / 2 ->
  Float.rnd x = IZR n * powerRZ 2 (e - 52).
Proof.
  intros He Hn. unfold Float.rnd.
  destruct (Req_dec_T x 0) as [-> | Hx].
  - rewrite Rabs_R0 in He. pose proof (powerRZ_lt 2 e ltac:(lra)). lra.
  - cbv zeta. rewrite (binade_unique e x He).
    rewrite (round_half_even_near n _ Hn). reflexivity.
Qed.

Lemma powerRZ_2_split (e : Z) :
  (e <= 52)%Z -> / powerRZ 2 (e - 52) = IZR (2 ^ (52 - e)).
Proof.
  intros He. rewrite <- powerRZ_neg'.
  replace (- (e - 52))%Z with (52 - e)%Z by lia.
  destruct (52 - e)%Z as [| p | p] eqn:E; try lia.
  - reflexivity.
  - change (2 ^ Z.pos p)%Z with (Z.pow_pos 2 p).
    rewrite Zpower_pos_powerRZ. reflexivity.
Qed.

(** [rnd] never crosses an integer, below 2^53 in size. *)
Lemma rnd_between (a b : Z) (x : R) :
  IZR a <= x <= IZR b -> Rabs x < powerRZ 2 53 ->
  IZR a <= Float.rnd x <= IZR b.
Proof.
  intros [Ha Hb] Hsize. unfold Float.rnd.
  destruct (Req_dec_T x 0) as [-> | Hx]; [lra |].
  cbv zeta.
  pose proof (binade_bounds x Hx) as [B1 B2].
  set (e := Float.binade x) in *.
  assert (He : (e <= 52)%Z).
  { destruct (Z_le_gt_dec e 52) as [H | H]; [exact H |].
    pose proof (powerRZ_2_mono 53 e ltac:(lia)). lra. }
  pose proof (powerRZ_lt 2 (e - 52) ltac:(lra)) as Hu.
  set (ulp := powerRZ 2 (e - 52)) in *.
  pose proof (powerRZ_2_split e He) as Hinv. fold ulp in Hinv.
  set (N := (2 ^ (52 - e))%Z) in *.
  assert (HN : 0 < IZR N) by (rewrite <- Hinv; apply Rinv_0_lt_compat; exact Hu).
  assert (Hulp : ulp = / IZR N).
  { rewrite <- Hinv. rewrite Rinv_inv. reflexivity. }
  assert (Hxs : IZR (a * N) <= x / ulp <= IZR (b * N)).
  { rewrite !mult_IZR. unfold Rdiv. rewrite Hinv.
    split; apply Rmult_le_compat_r; lra. }
  destruct (round_half_even_between _ _ _ Hxs) as [H1 H2].
  apply IZR_le in H1, H2. rewrite mult_IZR in H1, H2.
  set (m := IZR (Float.round_half_even (x / ulp))) in *.
  rewrite Hulp.
  assert (Hi : 0 < / IZR N) by (apply Rinv_0_lt_compat; exact HN).
  split.
  - apply Rmult_le_reg_r with (IZR N); [exact HN |].
    rewrite Rmult_assoc, Rinv_l by lra. lra.
  - apply Rmult_le_reg_r with (IZR N); [exact HN |].
    rewrite Rmult_assoc, Rinv_l by lra. lra.
Qed.

Lemma rnd_IZR (k : Z) : (Z.abs k < 2 ^ 53)%Z -> Float.rnd (IZR k) = IZR k.
Proof.
  intros Hk.
  assert (Hs : Rabs (IZR k) < powerRZ 2 53).
  { rewrite <- abs_IZR. change (powerRZ 2 53) with (powerRZ (IZR 2) (Z.pos 53)).
    rewrite <- Zpower_pos_powerRZ. apply IZR_lt. exact Hk. }
  pose proof (rnd_between k k (IZR k) ltac:(lra) Hs). lra.
Qed.

Lemma powerRZ_2_pos (p : positive) : powerRZ 2 (Z.pos p) = IZR (2 ^ Z.pos p).
Proof.
  change (2 ^ Z.pos p)%Z with (Z.pow_pos 2 p).
  rewrite Zpower_pos_powerRZ. reflexivity.
Qed.

Lemma powerRZ_2_neg (p : positive) : powerRZ 2 (Z.neg p) = / IZR (2 ^ Z.pos p).
Proof.
  change (Z.neg p) with (- Z.pos p)%Z.
  rewrite powerRZ_neg', powerRZ_2_pos. reflexivity.
Qed.

Ltac literal_powers :=
  repeat match goal with
  | |- context [powerRZ 2 (?a + ?b)] =>
      let v := eval vm_compute in (a + b)%Z in
      change (powerRZ 2 (a + b)) with (powerRZ 2 v)
  | |- context [powerRZ 2 (?a - ?b)] =>
      let v := eval vm_compute in (a - b)%Z in
      change (powerRZ 2 (a - b)) with (powerRZ 2 v)
  end;
  rewrite ?powerRZ_2_pos, ?powerRZ_2_neg, ?powerRZ_O;
  repeat match goal with
  | |- context [IZR (2 ^ Z.pos ?p)] =>
      let v := eval vm_compute in (2 ^ Z.pos p)%Z in
      change (2 ^ Z.pos p)%Z with v
  end.

Lemma round1_between (a b : Z) (x : R) :
  IZR a <= x <= IZR b ->
  IZR a <= Float.round1 x <= IZR b.
Proof.
  intros [Ha Hb]. unfold Float.round1.
  destruct (round_half_even_between (a * 10) (b * 10) (x * 10)) as [H1 H2].
  { rewrite !mult_IZR. lra. }
  apply IZR_le in H1, H2. rewrite mult_IZR in H1, H2. lra.
Qed.

Lemma round1_IZR (n : Z) : Float.round1 (IZR n) = IZR n.
Proof.
  unfold Float.round1. rewrite <- mult_IZR, round_half_even_IZR, mult_IZR.
  field.
Qed.

Lemma abs_of_pos x : 0 < x -> Rabs x = x.
Proof. intros. apply Rabs_right. lra. Qed.

Example percentage_23_of_80 : percentage 23 80 = 28.7.
Proof.
  unfold percentage, Float.div_int, Float.mul.
  rewrite (rnd_near (-2) 5179139571476070 (23 / 80)).
  2: { rewrite abs_of_pos by lra. literal_powers. lra. }
  2: { literal_powers. lra. }
  literal_powers.
  rewrite (rnd_near 4 8092405580431359).
  2: { rewrite abs_of_pos by lra. literal_powers. lra. }
  2: { literal_powers. lra. }
  literal_powers.
  unfold Float.round1.
  rewrite (round_half_even_near 287) by lra.
  lra.
Qed.

Example percentage_1_of_2 : percentage 1 2 = 50.
Proof.
  unfold percentage, Float.div_int, Float.mul.
  rewrite (rnd_near (-1) 4503599627370496 (1 / 2)).
  2: { rewrite abs_of_pos by lra. literal_powers. lra. }
  2: { literal_powers. lra. }
  literal_powers.
  rewrite (rnd_near 5 7036874417766400).
  2: { rewrite abs_of_pos by lra. literal_powers. lra. }
  2: { literal_powers. lra. }
  literal_powers.
  unfold Float.round1.
  rewrite (round_half_even_near 500) by lra.
  lra.
Qed.

(** The percentage of [count] products out of [total] stays between 0 and
    100 through the three roundings. *)
Lemma percentage_between (count total : Z) :
  (0 <= count <= total)%Z -> (0 < total)%Z ->
  0 <= percentage count total <= 100.
Proof.
  intros [Hlo Hhi] Hpos. unfold percentage, Float.div_int, Float.mul.
  apply IZR_le in Hlo, Hhi. apply IZR_lt in Hpos.
  assert (Hq : IZR 0 <= IZR count / IZR total <= IZR 1).
  { split.
    - apply Rmult_le_pos; [lra |]. left. apply Rinv_0_lt_compat. lra.
    - apply Rmult_le_reg_r with (IZR total); [lra |].
      unfold Rdiv. rewrite Rmult_assoc, Rinv_l by lra. lra. }
  assert (Hsmall : forall x, 0 <= x <= 100 -> Rabs x < powerRZ 2 53).
  { intros x Hx. rewrite Rabs_right by lra. literal_powers. lra. }
  apply rnd_between in Hq; [| apply Hsmall; lra].
  set (q := Float.rnd (IZR count / IZR total)) in *.
  assert (Hy : IZR 0 <= q * 100 <= IZR 100) by lra.
  apply rnd_between in Hy; [| apply Hsmall; lra].
  apply (round1_between 0 100). exact Hy.
Qed.

Lemma percentage_all (total : Z) : total <> 0%Z -> percentage total total = 100.
Proof.
  intros Ht. unfold percentage, Float.div_int, Float.mul.
  assert (Hq : IZR total / IZR total = IZR 1).
  { field. intros H. apply eq_IZR in H. exact (Ht H). }
  rewrite Hq, rnd_IZR by (vm_compute; reflexivity).
  rewrite <- mult_IZR, rnd_IZR by (vm_compute; reflexivity).
  apply round1_IZR.
Qed.

Lemma percentage_none (total : Z) : percentage 0 total = 0.
Proof.
  unfold percentage, Float.div_int, Float.mul.
  assert (Hq : IZR 0 / IZR total = IZR 0) by (unfold Rdiv; lra).
  rewrite Hq, rnd_IZR by (vm_compute; reflexivity).
  rewrite <- mult_IZR, rnd_IZR by (vm_compute; reflexivity).
  apply round1_IZR.
Qed.

(** ** Distance Calculator *)

Lemma sin_half_sq_swap x y : (sin ((x - y) / 2)) ^ 2 = (sin ((y - x) / 2)) ^ 2.
Proof.
  replace ((x - y) / 2) with (- ((y - x) / 2)) by lra.
  rewrite sin_neg. ring.
Qed.

Lemma calculate_distance_sym lat1 lon1 lat2 lon2 :
  calculate_distance lat1 lon1 lat2 lon2 = calculate_distance lat2 lon2 lat1 lon1.
Proof.
  unfold calculate_distance; cbv zeta.
  rewrite (sin_half_sq_swap (Float.radians lat2)).
  rewrite (sin_half_sq_swap (Float.radians lon2)).
  rewrite (Rmult_comm (cos (Float.radians lat1))).
  reflexivity.
Qed.

Lemma calculate_distance_refl lat lon : calculate_distance lat lon lat lon = 0.
Proof.
  unfold calculate_distance; cbv zeta.
  replace (Float.radians lat - Float.radians lat) with 0 by ring.
  replace (Float.radians lon - Float.radians lon) with 0 by ring.
  replace (0 / 2) with 0 by lra.
  rewrite sin_0.
  replace (0 ^ 2 + cos (Float.radians lat) * cos (Float.radians lat) * 0 ^ 2)
    with 0 by ring.
  rewrite sqrt_0, asin_0. ring.
Qed.

(** Along a meridian the distance is the arc: radius times the angle. *)
Lemma calculate_distance_meridian lat1 lat2 lon :
  lat1 <= lat2 <= lat1 + 180 ->
  calculate_distance lat1 lon lat2 lon = 6371 * ((lat2 - lat1) * PI / 180).
Proof.
  intros [Hlo Hhi].
  unfold calculate_distance; cbv zeta.
  replace (Float.radians lon - Float.radians lon) with 0 by ring.
  replace (0 / 2) with 0 by lra.
  rewrite sin_0.
  set (h := (Float.radians lat2 - Float.radians lat1) / 2).
  replace (sin h ^ 2 + cos (Float.radians lat1) * cos (Float.radians lat2) * 0 ^ 2)
    with (sin h ^ 2) by ring.
  assert (Hh : h = (lat2 - lat1) * PI / 360)
    by (unfold h, Float.radians; field).
  assert (Hpi := PI_RGT_0).
  assert (H0 : 0 <= h) by (rewrite Hh; nra).
  assert (H1 : h <= PI / 2) by (rewrite Hh; nra).
  rewrite sqrt_pow2 by (apply sin_ge_0; lra).
  rewrite asin_sin by lra.
  rewrite Hh. field.
Qed.

(** C7: [calculate_distance] is a function of its four arguments alone, the
    haversine formula with radius 6371; it is symmetric in the two
    coordinates and zero from a coordinate to itself (floats read as real
    numbers). *)
Theorem calculate_distance_symmetric_zero :
  forall lat1 lon1 lat2 lon2 : R,
    calculate_distance lat1 lon1 lat2 lon2 =
      calculate_distance lat2 lon2 lat1 lon1
    /\ calculate_distance lat1 lon1 lat1 lon1 = 0
    /\ calculate_distance lat1 lon1 lat2 lon2 =
       6371 *
       (2 * asin (sqrt
          ((sin ((Float.radians lat2 - Float.radians lat1) / 2)) ^ 2
           + cos (Float.radians lat1) * cos (Float.radians lat2)
             * (sin ((Float.radians lon2 - Float.radians lon1) / 2)) ^ 2))).
Proof.
  intros; repeat split.
  - apply calculate_distance_sym.
  - apply calculate_distance_refl.
Qed.

(** ** The monad *)

Section MonadFacts.

Context {G : Type}.

Lemma bind_ok_inv {A B} (m : M G A) (k : A -> M G B) s b s' :
  bind m k s = (Ok b, s') ->
  exists a s1, m s = (Ok a, s1) /\ k a s1 = (Ok b, s').
Proof.
  unfold bind. destruct (m s) as [[a | e] s1]; intros E.
  - exists a, s1. split; [reflexivity | exact E].
  - discriminate.
Qed.

Lemma bind_ok_step {A B} (m : M G A) (k : A -> M G B) s a s1 :
  m s = (Ok a, s1) -> bind m k s = k a s1.
Proof. unfold bind. intros ->. reflexivity. Qed.

Lemma bind_raise_step {A B} (m : M G A) (k : A -> M G B) s e s1 :
  m s = (Raise e, s1) -> bind m k s = (Raise e, s1).
Proof. unfold bind. intros ->. reflexivity. Qed.

Lemma truediv_nonzero (a b : Z) (s : state G) :
  b <> 0%Z -> truediv a b s = (Ok (Float.div_int a b), s).
Proof.
  intros Hb. unfold truediv.
  destruct (Z.eqb_spec b 0); [contradiction | reflexivity].
Qed.

Lemma truediv_zero (a : Z) (s : state G) :
  truediv a 0 s = (Raise ZeroDivisionError, s).
Proof. reflexivity. Qed.

End MonadFacts.

Lemma len_nil_iff {A} (l : list A) : len l = 0%Z <-> l = [].
Proof.
  unfold len. destruct l; simpl; split; intros E; try easy; lia.
Qed.

(** ** Availability Estimator *)

Lemma prob_of_stated store_name item :
  prob_of (Str.lower store_name) (Str.lower item)
  = stated_probability store_name item.
Proof.
  unfold prob_of, stated_probability; cbv zeta.
  destruct (Str.any_in product_keywords (Str.lower item)); reflexivity.
Qed.

Section Availability.

Context {G : Type} `{Generator G}.

Lemma available_loop_draws store_name items :
  forall acc (s : state G),
    available_loop (Str.lower store_name) items acc s =
    (Ok (acc ++ stated_selection store_name items
                  (fst (draws (List.length items) (gen s)))),
     mkState (snd (draws (List.length items) (gen s))) (trace s)).
Proof.
  induction items as [| item rest IH]; intros acc s.
  - simpl. unfold ret. rewrite app_nil_r. destruct s; reflexivity.
  - cbn [available_loop List.length draws stated_selection].
    unfold bind, draw.
    destruct (random (gen s)) as [u g1] eqn:Eu.
    rewrite prob_of_stated.
    destruct (Float.ltb u (stated_probability store_name item)) eqn:Ecmp.
    + rewrite IH. cbn [gen trace].
      destruct (draws (List.length rest) g1) as [us g2]. cbn [fst snd].
      rewrite Ecmp. rewrite <- app_assoc. reflexivity.
    + rewrite IH. cbn [gen trace].
      destruct (draws (List.length rest) g1) as [us g2]. cbn [fst snd].
      rewrite Ecmp. reflexivity.
Qed.

(** [determine_available_products] never raises; it returns some of the
    items and leaves the trace as it was. *)
Lemma determine_available_products_total store_name items (s : state G) :
  exists available s',
    determine_available_products store_name items s = (Ok available, s')
    /\ trace s' = trace s.
Proof.
  unfold determine_available_products. rewrite available_loop_draws.
  eexists _, _. split; [reflexivity | reflexivity].
Qed.

End Availability.

(** C5: with the draws as input, [determine_available_products] returns, in
    order, the items whose draw is below the stated probability: 0.9 or 0.4
    for an item with an organic keyword (0.9 when the store name has one of
    [organic_store_keywords]), and otherwise 0.6, 0.8, 0.75 or 0.7 by the
    first class of keyword the store name has. *)
Theorem determine_available_products_threshold :
  forall (G : Type) (RNG : Generator G) (store_name : string)
         (items : list string) (s : state G),
    determine_available_products store_name items s =
      (Ok (stated_selection store_name items
             (fst (draws (List.length items) (gen s)))),
       mkState (snd (draws (List.length items) (gen s))) (trace s))
    /\ (forall item,
          let u := fst (random (gen s)) in
          fst (determine_available_products store_name [item] s) =
            Ok (if Float.ltb u (stated_probability store_name item)
                then [item] else [])
          /\ (Float.ltb u (stated_probability store_name item) = true
              <-> u < stated_probability store_name item)).
Proof.
  intros G RNG store_name items s. split.
  - unfold determine_available_products.
    rewrite available_loop_draws. reflexivity.
  - intros item u. split; [| apply ltb_lt].
    unfold determine_available_products.
    rewrite available_loop_draws. cbn [List.length draws].
    subst u. destruct (random (gen s)) as [u g1]. cbn [fst snd stated_selection].
    destruct (Float.ltb u (stated_probability store_name item)); reflexivity.
Qed.

(** ** Geolocator *)

Section Geolocator.

Context {G : Type} `{Generator G}.
Variable api : Services.

(** [geocode_location] never raises and draws no random number. *)
Lemma geocode_location_total location (s : state G) :
  exists origin events,
    geocode_location api location s =
      (Ok origin, mkState (gen s) (trace s ++ GetGeocode location :: events)).
Proof.
  unfold geocode_location, bind, emit, ret. cbn.
  destruct (geocode_json api location) as [e | status results]; cbn.
  - eexists _, [_]. rewrite <- app_assoc. reflexivity.
  - destruct (String.eqb status "OK"); [destruct results as [| c rest] |]; cbn.
    + eexists _, [_]. rewrite <- app_assoc. reflexivity.
    + exists c, []. reflexivity.
    + eexists _, [_]. rewrite <- app_assoc. reflexivity.
Qed.

Lemma geocode_location_failed location (s : state G) :
  geocoding_failed (geocode_json api location) ->
  exists notice,
    geocode_location api location s =
      (Ok fallback_coordinate,
       mkState (gen s) (trace s ++ [GetGeocode location; notice]))
    /\ ((exists msg, notice = StWarning msg) \/ (exists msg, notice = StError msg)).
Proof.
  unfold geocoding_failed, geocode_location, bind, emit, ret. cbn.
  destruct (geocode_json api location) as [e | status results]; cbn; intros Hf.
  - eexists. rewrite <- app_assoc. split; [reflexivity |].
    right. eexists; reflexivity.
  - destruct (String.eqb_spec status "OK") as [-> | Hne]; cbn.
    + destruct Hf as [Hf | ->]; [contradiction |]. cbn.
      eexists. rewrite <- app_assoc. split; [reflexivity |].
      left. eexists; reflexivity.
    + eexists. rewrite <- app_assoc. split; [reflexivity |].
      left. eexists; reflexivity.
Qed.

End Geolocator.

(** C6: when the geocoding call fails (an exception in the [try], a status
    other than OK, or no results), [geocode_location] returns the fixed
    coordinate (45.698, 9.677) instead of raising, after one request and one
    warning or error message. *)
Theorem geocode_location_fallback :
  forall (G : Type) (RNG : Generator G) (api : Services) (location : string)
         (s : state G),
    geocoding_failed (geocode_json api location) ->
    exists notice,
      geocode_location api location s =
        (Ok (45.698, 9.677),
         mkState (gen s) (trace s ++ [GetGeocode location; notice]))
      /\ ((exists msg, notice = StWarning msg)
          \/ (exists msg, notice = StError msg)).
Proof.
  intros G RNG api location s Hf.
  exact (geocode_location_failed api location s Hf).
Qed.

(** ** Result Aggregator: the loop over the places *)

Section Aggregator.

Context {G : Type} `{Generator G}.
Variables (items : list string) (user_lat user_lon max_distance_km : R).

Lemma record_consistent_intro (r : Store.t) (available : list string) :
  Store.products_count r = len available ->
  Store.missing_products r = (len items - len available)%Z ->
  Store.has_all_products r = (len available =? len items)%Z ->
  Store.total_items r = len items ->
  Store.match_percentage r =
    Float.round1 (Float.mul (Float.div_int (len available) (len items)) 100) ->
  record_consistent items r.
Proof.
  intros Hc Hm Hh Ht Hp. unfold record_consistent.
  rewrite Hc, Hm, Hh, Ht, Hp.
  split; [lia |]. split; [reflexivity |]. split; [apply Z.eqb_eq | reflexivity].
Qed.

(** Whenever the loop returns, it has appended one record per kept place,
    in order, and left the trace alone. *)
Lemma place_loop_ok_inv (places : list Place.t) :
  forall stores_data seen (s : state G) res s',
    place_loop items user_lat user_lon max_distance_km places stores_data seen s
      = (Ok res, s') ->
    exists out,
      res = stores_data ++ out
      /\ Forall2 (made_from items user_lat user_lon)
           (kept user_lat user_lon max_distance_km places seen) out
      /\ trace s' = trace s.
Proof.
  induction places as [| p rest IH]; intros acc seen s res s' E.
  - cbn in E. unfold ret in E. injection E as <- <-.
    exists []. rewrite app_nil_r. repeat split. constructor.
  - cbn [place_loop kept] in *. unfold distance_to.
    destruct (Str.mem (Place.name p) seen).
    + apply IH. exact E.
    + destruct (Float.leb _ max_distance_km).
      * destruct (determine_available_products_total (Place.name p) items s)
          as (available & s1 & Ea & Ht1).
        rewrite (bind_ok_step _ _ _ _ _ Ea) in E.
        unfold truediv in E.
        destruct (Z.eqb_spec (len items) 0) as [Hz | Hnz].
        { rewrite (bind_raise_step _ _ s1 ZeroDivisionError s1) in E
            by reflexivity.
          discriminate. }
        rewrite (bind_ok_step _ _ s1 _ s1) in E by reflexivity.
        apply IH in E. destruct E as (out & -> & Hout & Ht).
        eexists (_ :: out). rewrite <- app_assoc. split; [reflexivity |].
        split; [| congruence].
        constructor; [| exact Hout].
        split.
        { split; reflexivity. }
        apply (record_consistent_intro _ available); reflexivity.
      * apply IH. exact E.
Qed.

(** With at least one item the loop returns. *)
Lemma place_loop_total (places : list Place.t) :
  items <> [] ->
  forall stores_data seen (s : state G),
    exists res s',
      place_loop items user_lat user_lon max_distance_km places stores_data
        seen s = (Ok res, s').
Proof.
  intros Hne. assert (Hlen : len items <> 0%Z) by (rewrite len_nil_iff; exact Hne).
  induction places as [| p rest IH]; intros acc seen s.
  - eexists _, _. reflexivity.
  - cbn [place_loop].
    destruct (Str.mem (Place.name p) seen); [apply IH |].
    destruct (Float.leb _ max_distance_km); [| apply IH].
    destruct (determine_available_products_total (Place.name p) items s)
      as (available & s1 & Ea & Ht1).
    rewrite (bind_ok_step _ _ _ _ _ Ea).
    rewrite (bind_ok_step _ _ s1 _ s1) by (apply truediv_nonzero; exact Hlen).
    apply IH.
Qed.

(** With no item, the first kept place raises; nothing is drawn or shown. *)
Lemma place_loop_no_items (places : list Place.t) :
  items = [] ->
  forall stores_data seen (s : state G),
    place_loop items user_lat user_lon max_distance_km places stores_data seen s
    = match kept user_lat user_lon max_distance_km places seen with
      | [] => (Ok stores_data, s)
      | _ :: _ => (Raise ZeroDivisionError, s)
      end.
Proof.
  intros Hnil.
  induction places as [| p rest IH]; intros acc seen s.
  - reflexivity.
  - cbn [place_loop kept]. unfold distance_to.
    destruct (Str.mem (Place.name p) seen); [apply IH |].
    destruct (Float.leb _ max_distance_km); [| apply IH].
    subst items. destruct s as [g tr]. reflexivity.
Qed.

End Aggregator.

(** ** Fallback Generator *)

Section Fallback.

Context {G : Type} `{Generator G}.
Variables (items : list string) (user_lat user_lon max_distance_km : R).

Lemma draw_step {A} (f : G -> A * G) (s : state G) :
  draw f s = (Ok (fst (f (gen s))), mkState (snd (f (gen s))) (trace s)).
Proof. unfold draw. destruct (f (gen s)); reflexivity. Qed.

Lemma subseq_refl {A} (l : list A) : subseq l l.
Proof. induction l; constructor; assumption. Qed.

Lemma subseq_nil_any {A} (l : list A) : subseq [] l.
Proof. induction l; constructor; assumption. Qed.

Lemma subseq_length {A} (l1 l2 : list A) :
  subseq l1 l2 -> (List.length l1 <= List.length l2)%nat.
Proof. induction 1; simpl; lia. Qed.

Lemma subseq_In {A} (l1 l2 : list A) x : subseq l1 l2 -> In x l1 -> In x l2.
Proof.
  induction 1; simpl; intros Hin; auto.
  destruct Hin; auto.
Qed.

(** Whenever the loop returns, it has appended records for some of the
    names, in order, each for a perturbed coordinate within range. *)
Lemma fallback_loop_ok_inv (names : list string) :
  forall i fallback_stores (s : state G) res s',
    fallback_loop items user_lat user_lon max_distance_km names i
      fallback_stores s = (Ok res, s') ->
    exists out,
      res = fallback_stores ++ out
      /\ Forall (fun r => within_range user_lat user_lon max_distance_km r
                          /\ record_consistent items r) out
      /\ subseq (map Store.name out) names
      /\ trace s' = trace s.
Proof.
  induction names as [| n rest IH]; intros i acc s res s' E.
  - cbn in E. unfold ret in E. injection E as <- <-.
    exists []. rewrite app_nil_r. repeat split; constructor.
  - cbn [fallback_loop] in E.
    rewrite (bind_ok_step _ _ _ _ _ (draw_step _ s)) in E.
    set (s1 := mkState _ _) in E.
    rewrite (bind_ok_step _ _ _ _ _ (draw_step _ s1)) in E.
    set (s2 := mkState _ _) in E.
    set (distance := calculate_distance _ _ _ _) in E.
    destruct (Float.leb distance max_distance_km) eqn:Hin.
    + destruct (determine_available_products_total n items s2)
        as (available & s3 & Ea & Ht3).
      rewrite (bind_ok_step _ _ _ _ _ Ea) in E.
      rewrite (bind_ok_step _ _ _ _ _ (draw_step _ s3)) in E.
      set (s4 := mkState _ _) in E.
      rewrite (bind_ok_step _ _ _ _ _ (draw_step _ s4)) in E.
      set (s5 := mkState _ _) in E.
      unfold truediv in E.
      destruct (Z.eqb_spec (len items) 0) as [Hz | Hnz].
      { rewrite (bind_raise_step _ _ s5 ZeroDivisionError s5) in E
          by reflexivity.
        discriminate. }
      rewrite (bind_ok_step _ _ s5 _ s5) in E by reflexivity.
      apply IH in E. destruct E as (out & -> & Hout & Hsub & Ht).
      eexists (_ :: out). rewrite <- app_assoc. split; [reflexivity |].
      split; [| split].
      * constructor; [| exact Hout]. split.
        -- eexists _, _. split; [reflexivity |].
           apply leb_le. exact Hin.
        -- apply (record_consistent_intro _ _ available); reflexivity.
      * cbn [map Store.name]. apply subseq_take. exact Hsub.
      * rewrite Ht. cbn. exact Ht3.
    + apply IH in E. destruct E as (out & -> & Hout & Hsub & Ht).
      exists out. repeat split; try assumption.
      apply subseq_skip. exact Hsub.
Qed.

(** With at least one item the loop returns. *)
Lemma fallback_loop_total (names : list string) :
  items <> [] ->
  forall i fallback_stores (s : state G),
    exists res s',
      fallback_loop items user_lat user_lon max_distance_km names i
        fallback_stores s = (Ok res, s').
Proof.
  intros Hne. assert (Hlen : len items <> 0%Z) by (rewrite len_nil_iff; exact Hne).
  induction names as [| n rest IH]; intros i acc s.
  - eexists _, _. reflexivity.
  - cbn [fallback_loop].
    rewrite (bind_ok_step _ _ _ _ _ (draw_step _ s)).
    set (s1 := mkState _ _).
    rewrite (bind_ok_step _ _ _ _ _ (draw_step _ s1)).
    set (s2 := mkState _ _).
    destruct (Float.leb _ max_distance_km); [| apply IH].
    destruct (determine_available_products_total n items s2)
      as (available & s3 & Ea & Ht3).
    rewrite (bind_ok_step _ _ _ _ _ Ea).
    rewrite (bind_ok_step _ _ _ _ _ (draw_step _ s3)).
    set (s4 := mkState _ _).
    rewrite (bind_ok_step _ _ _ _ _ (draw_step _ s4)).
    set (s5 := mkState _ _).
    rewrite (bind_ok_step _ _ s5 _ s5) by (apply truediv_nonzero; exact Hlen).
    apply IH.
Qed.

(** With no item, the first perturbed coordinate within range raises. *)
Lemma fallback_loop_no_items (names : list string) :
  items = [] ->
  forall i fallback_stores (s : state G),
    if perturbed_in_range user_lat user_lon max_distance_km
         (List.length names) (gen s)
    then exists s',
        fallback_loop items user_lat user_lon max_distance_km names i
          fallback_stores s = (Raise ZeroDivisionError, s')
    else exists s',
        fallback_loop items user_lat user_lon max_distance_km names i
          fallback_stores s = (Ok fallback_stores, s').
Proof.
  intros Hnil.
  induction names as [| n rest IH]; intros i acc s.
  - cbn. eexists. reflexivity.
  - cbn [fallback_loop List.length perturbed_in_range].
    rewrite (bind_ok_step _ _ _ _ _ (draw_step _ s)).
    set (s1 := mkState _ _).
    rewrite (bind_ok_step _ _ _ _ _ (draw_step _ s1)).
    set (s2 := mkState _ _).
    subst s1; cbn [gen trace] in *.
    destruct (uniform (-0.05) 0.05 (gen s)) as [dlat g1]. cbn [fst snd] in *.
    destruct (uniform (-0.05) 0.05 g1) as [dlng g2]. cbn [fst snd] in *.
    destruct (Float.leb _ max_distance_km).
    + cbn [orb].
      destruct (determine_available_products_total n items s2)
        as (available & s3 & Ea & Ht3).
      rewrite (bind_ok_step _ _ _ _ _ Ea).
      rewrite (bind_ok_step _ _ _ _ _ (draw_step _ s3)).
      set (s4 := mkState _ _).
      rewrite (bind_ok_step _ _ _ _ _ (draw_step _ s4)).
      set (s5 := mkState _ _).
      subst items. eexists. reflexivity.
    + cbn [orb]. exact (IH (S i) acc s2).
Qed.

End Fallback.

(** ** Place Search *)

Section PlaceSearch.

Context {G : Type} `{Generator G}.
Variable api : Services.

Lemma search_places_text_spec query location (s : state G) :
  search_places_text api query location s =
    (Ok (ok_results (textsearch_json api query)),
     mkState (gen s) (trace s ++ [GetTextSearch query])).
Proof.
  unfold search_places_text, ok_results, bind, emit, ret. cbn.
  destruct (textsearch_json api query) as [e | status results]; [reflexivity |].
  destruct (String.eqb status "OK"); reflexivity.
Qed.

Lemma text_loop_spec location (names : list string) :
  forall places (s : state G),
    text_loop api location names places s =
      (Ok (places ++
           List.concat
             (map (fun n => ok_results
                              (textsearch_json api (n ++ " " ++ location)%string))
                  names)),
       mkState (gen s)
         (trace s ++
          map (fun n => GetTextSearch (n ++ " " ++ location)%string) names)).
Proof.
  induction names as [| n rest IH]; intros places s.
  - cbn. unfold ret. rewrite !app_nil_r. destruct s; reflexivity.
  - cbn [text_loop map List.concat].
    rewrite (bind_ok_step _ _ _ _ _ (search_places_text_spec _ _ s)).
    rewrite IH. cbn [gen trace]. rewrite <- !app_assoc. reflexivity.
Qed.

Lemma search_places_nearby_total lat lng radius keyword (s : state G) :
  exists places events,
    search_places_nearby api lat lng radius keyword s =
      (Ok places,
       mkState (gen s)
         (trace s ++ GetNearbySearch lat lng radius keyword :: events)).
Proof.
  unfold search_places_nearby, bind, emit, ret. cbn.
  destruct (nearbysearch_json api lat lng radius keyword)
    as [e | status results]; cbn.
  - eexists _, [_]. rewrite <- app_assoc. reflexivity.
  - destruct (String.eqb status "OK"); cbn.
    + eexists _, []. reflexivity.
    + eexists _, [_]. rewrite <- app_assoc. reflexivity.
Qed.

(** The first stage never raises and draws nothing. *)
Lemma place_search_total location max_distance_km (s : state G) :
  exists origin places s1,
    place_search api location max_distance_km s = (Ok (origin, places), s1)
    /\ fst (geocode_location api location s) = Ok origin
    /\ gen s1 = gen s.
Proof.
  unfold place_search.
  destruct (geocode_location_total api location s) as (origin & ev & Eg).
  rewrite (bind_ok_step _ _ _ _ _ Eg).
  destruct (search_places_nearby_total (fst origin) (snd origin)
              (max_distance_km * 1000) "supermarket"
              (mkState (gen s) (trace s ++ GetGeocode location :: ev)))
    as (near & ev' & En).
  rewrite (bind_ok_step _ _ _ _ _ En).
  exists origin. rewrite Eg. cbn [fst gen trace].
  destruct (len near <? 3)%Z; cbv beta iota.
  - erewrite bind_ok_step by apply text_loop_spec.
    eexists _, _. split; [reflexivity |]. split; reflexivity.
  - erewrite bind_ok_step by reflexivity.
    eexists _, _. split; [reflexivity |]. split; reflexivity.
Qed.

(** [search_stores] is its two stages in sequence. *)
Lemma search_stores_stages items location max_distance_km (s : state G) :
  search_stores api items location max_distance_km s =
    bind (place_search api location max_distance_km)
         (aggregate items location max_distance_km) s.
Proof.
  unfold search_stores, place_search, aggregate, bind, ret.
  destruct (geocode_location api location s) as [[origin | e] s1];
    [| reflexivity].
  destruct (search_places_nearby api (fst origin) (snd origin)
              (max_distance_km * 1000) "supermarket" s1)
    as [[near | e] s2]; [| reflexivity].
  destruct (len near <? 3)%Z; cbv beta iota.
  - destruct (text_loop api location (firstn 3 common_stores) near s2)
      as [[places | e] s3]; reflexivity.
  - reflexivity.
Qed.

End PlaceSearch.

(** ** The places the loop keeps *)

Section Kept.

Variables (user_lat user_lon max_distance_km : R).

Lemma mem_cons x y names :
  Str.mem x (y :: names) = String.eqb y x || Str.mem x names.
Proof. unfold Str.mem. cbn. rewrite String.eqb_sym. reflexivity. Qed.

Lemma kept_In places : forall seen p,
  In p (kept user_lat user_lon max_distance_km places seen) ->
  In p places
  /\ distance_to user_lat user_lon p <= max_distance_km
  /\ Str.mem (Place.name p) seen = false.
Proof.
  induction places as [| q rest IH]; intros seen p Hin; [contradiction |].
  cbn [kept] in Hin.
  destruct (Str.mem (Place.name q) seen) eqn:Hm.
  - apply IH in Hin. destruct Hin as (? & ? & ?). repeat split; auto. now right.
  - destruct (Float.leb _ max_distance_km) eqn:Hd.
    + destruct Hin as [<- | Hin].
      * repeat split; auto. now left. now apply leb_le.
      * apply IH in Hin. destruct Hin as (? & ? & Hm').
        repeat split; auto. now right.
        rewrite mem_cons in Hm'. now apply orb_false_elim in Hm'.
    + apply IH in Hin. destruct Hin as (? & ? & Hm').
      repeat split; auto. now right.
      rewrite mem_cons in Hm'. now apply orb_false_elim in Hm'.
Qed.

(** How many kept places carry the name [n]: one when the first place of
    that name is new and within range, none otherwise. *)
Lemma kept_count n places : forall seen,
  List.length
    (filter (fun p => String.eqb (Place.name p) n)
       (kept user_lat user_lon max_distance_km places seen))
  = if Str.mem n seen then O
    else match first_named n places with
         | Some p =>
             if Float.leb (distance_to user_lat user_lon p) max_distance_km
             then 1%nat else O
         | None => O
         end.
Proof.
  unfold first_named.
  induction places as [| q rest IH]; intros seen.
  - cbn. destruct (Str.mem n seen); reflexivity.
  - cbn [kept find].
    destruct (Str.mem (Place.name q) seen) eqn:Hq.
    + rewrite IH. destruct (Str.mem n seen) eqn:Hn; [reflexivity |].
      destruct (String.eqb_spec (Place.name q) n) as [E | _]; [| reflexivity].
      congruence.
    + destruct (String.eqb_spec (Place.name q) n) as [E | Hne].
      * subst n. rewrite Hq.
        destruct (Float.leb _ max_distance_km).
        -- cbn [filter]. rewrite String.eqb_refl. cbn [List.length].
           rewrite IH, mem_cons, String.eqb_refl. reflexivity.
        -- rewrite IH, mem_cons, String.eqb_refl. reflexivity.
      * assert (Hm : Str.mem n (Place.name q :: seen) = Str.mem n seen).
        { rewrite mem_cons. destruct (String.eqb_spec (Place.name q) n);
            [contradiction | reflexivity]. }
        destruct (Float.leb _ max_distance_km).
        -- cbn [filter].
           destruct (String.eqb_spec (Place.name q) n); [contradiction |].
           rewrite IH, Hm. reflexivity.
        -- rewrite IH, Hm. reflexivity.
Qed.

(** Records built from places carry the places' names. *)
Lemma built_count items n : forall places out,
  Forall2 (made_from items user_lat user_lon) places out ->
  count_name n out
  = List.length (filter (fun p => String.eqb (Place.name p) n) places).
Proof.
  unfold count_name. induction 1 as [| p r ps rs [[Hn _] _] _ IH]; [reflexivity |].
  cbn [filter]. rewrite Hn.
  destruct (String.eqb (Place.name p) n); cbn [List.length]; congruence.
Qed.

End Kept.

(** ** Result Aggregator: the loop and the fallback step together *)

Section Aggregate.

Context {G : Type} `{Generator G}.
Variables (items : list string) (location : string) (max_distance_km : R).

(** Every record of a returned list was built either from a kept place or
    by the fallback generator, which runs only below three live records. *)
Lemma aggregate_ok_inv origin places (s : state G) stores s' :
  aggregate items location max_distance_km (origin, places) s = (Ok stores, s') ->
  exists live fallback,
    stores = live ++ fallback
    /\ Forall2 (made_from items (fst origin) (snd origin))
         (kept (fst origin) (snd origin) max_distance_km places []) live
    /\ Forall (fun r => within_range (fst origin) (snd origin) max_distance_km r
                        /\ record_consistent items r) fallback
    /\ subseq (map Store.name fallback) (firstn 6 common_stores)
    /\ (fallback = [] \/ (len live < 3)%Z)
    /\ trace s' = trace s.
Proof.
  unfold aggregate. cbn [fst snd]. intros E.
  apply bind_ok_inv in E. destruct E as (live & s1 & El & E).
  apply place_loop_ok_inv in El. destruct El as (out & -> & Hlive & Ht1).
  cbn [app] in *.
  destruct (Z.ltb_spec (len out) 3) as [Hlt | Hge].
  - apply bind_ok_inv in E. destruct E as (fb & s2 & Ef & E).
    unfold ret in E. injection E as <- <-.
    unfold get_fallback_stores in Ef.
    apply fallback_loop_ok_inv in Ef. destruct Ef as (fb' & -> & Hfb & Hsub & Ht2).
    cbn [app] in *.
    exists out, fb'. repeat split; auto. congruence.
  - unfold ret in E. injection E as <- <-.
    exists out, []. rewrite app_nil_r.
    repeat split; auto; try apply subseq_nil_any; constructor.
Qed.

Lemma aggregate_total origin places (s : state G) :
  items <> [] ->
  exists stores s',
    aggregate items location max_distance_km (origin, places) s = (Ok stores, s').
Proof.
  intros Hne. unfold aggregate. cbn [fst snd].
  destruct (place_loop_total items (fst origin) (snd origin) max_distance_km
              places Hne [] [] s) as (live & s1 & El).
  rewrite (bind_ok_step _ _ _ _ _ El).
  destruct (len live <? 3)%Z.
  - destruct (fallback_loop_total items (fst origin) (snd origin)
                max_distance_km (firstn 6 common_stores) Hne 0 [] s1)
      as (fb & s2 & Ef).
    unfold get_fallback_stores. rewrite (bind_ok_step _ _ _ _ _ Ef).
    eexists _, _. reflexivity.
  - eexists _, _. reflexivity.
Qed.

End Aggregate.

(** With at least one item, [search_stores] returns a list. *)
Lemma search_stores_total {G} `{Generator G} (api : Services)
  (items : list string) (location : string) (max_distance_km : R) (s : state G) :
  items <> [] ->
  exists stores s',
    search_stores api items location max_distance_km s = (Ok stores, s').
Proof.
  intros Hne. rewrite search_stores_stages.
  destruct (place_search_total api location max_distance_km s)
    as (origin & places & s1 & Ep & _ & _).
  rewrite (bind_ok_step _ _ _ _ _ Ep).
  apply aggregate_total. exact Hne.
Qed.

(** What the invariant of a record says of its percentage. *)
Lemma record_consistent_percentage (items : list string) (r : Store.t) :
  items <> [] ->
  record_consistent items r ->
  Store.match_percentage r = percentage (Store.products_count r) (len items)
  /\ (Store.has_all_products r = true -> Store.match_percentage r = 100)
  /\ (Store.products_count r = 0%Z -> Store.match_percentage r = 0).
Proof.
  intros Hne (_ & Ht & Hh & Hp).
  assert (Hlen : len items <> 0%Z) by (rewrite len_nil_iff; exact Hne).
  rewrite Ht in Hp. fold (percentage (Store.products_count r) (len items)) in Hp.
  split; [exact Hp |]. split.
  - intros Hall. apply Hh in Hall. rewrite Hp, Hall, Ht.
    apply percentage_all. exact Hlen.
  - intros Hz. rewrite Hp, Hz. apply percentage_none.
Qed.

(** C1: every record of a list that [search_stores] returns for a non-empty
    item list, live or fallback, has products_count + missing_products =
    total_items = len(items), has_all_products true exactly when
    products_count = total_items, and match_percentage =
    round(products_count / total_items * 100, 1), where the quotient and the
    product are rounded to doubles before the rounding to one decimal (so 23
    of 80 gives 28.7: [percentage_23_of_80]); the percentage is 100 when all
    products were found and 0 when none was. *)
Theorem store_records_consistent :
  forall (G : Type) (RNG : Generator G) (api : Services)
         (items : list string) (location : string) (max_distance_km : R)
         (s : state G) (stores : list Store.t) (s' : state G),
    search_stores api items location max_distance_km s = (Ok stores, s') ->
    items <> [] ->
    Forall
      (fun r =>
         record_consistent items r
         /\ Store.match_percentage r
            = percentage (Store.products_count r) (len items)
         /\ (Store.has_all_products r = true -> Store.match_percentage r = 100)
         /\ (Store.products_count r = 0%Z -> Store.match_percentage r = 0))
      stores.
Proof.
  intros G RNG api items location max_distance_km s stores s' E Hne.
  rewrite search_stores_stages in E.
  apply bind_ok_inv in E. destruct E as ([origin places] & s1 & _ & E).
  apply aggregate_ok_inv in E.
  destruct E as (live & fb & -> & Hlive & Hfb & _).
  assert (Hall : Forall (record_consistent items) (live ++ fb)).
  { apply Forall_app. split.
    - clear - Hlive.
      induction Hlive as [| p r ps rs [_ Hr] _ IH]; constructor; auto.
    - eapply Forall_impl; [| exact Hfb]. intros r [_ Hr]. exact Hr. }
  eapply Forall_impl; [| exact Hall].
  intros r Hr. split; [exact Hr |].
  apply record_consistent_percentage; assumption.
Qed.

(** ** One iteration of each loop *)

Section Steps.

Context {G : Type} `{Generator G}.
Variables (items : list string) (user_lat user_lon max_distance_km : R).

Lemma determine_available_products_draws store_name (s : state G) :
  determine_available_products store_name items s =
    (Ok (stated_selection store_name items
           (fst (draws (List.length items) (gen s)))),
     mkState (snd (draws (List.length items) (gen s))) (trace s)).
Proof.
  unfold determine_available_products.
  rewrite available_loop_draws. reflexivity.
Qed.

Lemma place_loop_seen p rest stores_data seen (s : state G) :
  Str.mem (Place.name p) seen = true ->
  place_loop items user_lat user_lon max_distance_km (p :: rest) stores_data
    seen s
  = place_loop items user_lat user_lon max_distance_km rest stores_data seen s.
Proof. intros Hm. cbn [place_loop]. rewrite Hm. reflexivity. Qed.

Lemma place_loop_far p rest stores_data seen (s : state G) :
  Str.mem (Place.name p) seen = false ->
  Float.leb (distance_to user_lat user_lon p) max_distance_km = false ->
  place_loop items user_lat user_lon max_distance_km (p :: rest) stores_data
    seen s
  = place_loop items user_lat user_lon max_distance_km rest stores_data
      (Place.name p :: seen) s.
Proof.
  unfold distance_to. intros Hm Hd. cbn [place_loop]. rewrite Hm, Hd.
  reflexivity.
Qed.

Lemma place_loop_near p rest stores_data seen (s : state G) :
  items <> [] ->
  Str.mem (Place.name p) seen = false ->
  Float.leb (distance_to user_lat user_lon p) max_distance_km = true ->
  place_loop items user_lat user_lon max_distance_km (p :: rest) stores_data
    seen s
  = place_loop items user_lat user_lon max_distance_km rest
      (stores_data ++
       [live_record items user_lat user_lon p
          (stated_selection (Place.name p) items
             (fst (draws (List.length items) (gen s))))])
      (Place.name p :: seen)
      (mkState (snd (draws (List.length items) (gen s))) (trace s)).
Proof.
  unfold distance_to. intros Hne Hm Hd. cbn [place_loop]. rewrite Hm, Hd.
  rewrite (bind_ok_step _ _ _ _ _ (determine_available_products_draws _ s)).
  erewrite bind_ok_step
    by (apply truediv_nonzero; rewrite len_nil_iff; exact Hne).
  reflexivity.
Qed.

Lemma fallback_loop_far n rest i fallback_stores (s : state G) :
  let lat_draw := uniform (-0.05) 0.05 (gen s) in
  let lng_draw := uniform (-0.05) 0.05 (snd lat_draw) in
  Float.leb
    (calculate_distance user_lat user_lon
       (user_lat + fst lat_draw) (user_lon + fst lng_draw))
    max_distance_km = false ->
  fallback_loop items user_lat user_lon max_distance_km (n :: rest) i
    fallback_stores s
  = fallback_loop items user_lat user_lon max_distance_km rest (S i)
      fallback_stores (mkState (snd lng_draw) (trace s)).
Proof.
  intros lat_draw lng_draw Hd. cbn [fallback_loop].
  rewrite (bind_ok_step _ _ _ _ _ (draw_step _ s)).
  erewrite bind_ok_step by apply draw_step.
  cbn [gen trace]. fold lat_draw. fold lng_draw. rewrite Hd. reflexivity.
Qed.

Lemma fallback_loop_near n rest i fallback_stores (s : state G) :
  let lat_draw := uniform (-0.05) 0.05 (gen s) in
  let lng_draw := uniform (-0.05) 0.05 (snd lat_draw) in
  let item_draws := draws (List.length items) (snd lng_draw) in
  let rating_draw := uniform 3.8 4.6 (snd item_draws) in
  let reviews_draw := randint 100 1500 (snd rating_draw) in
  items <> [] ->
  Float.leb
    (calculate_distance user_lat user_lon
       (user_lat + fst lat_draw) (user_lon + fst lng_draw))
    max_distance_km = true ->
  fallback_loop items user_lat user_lon max_distance_km (n :: rest) i
    fallback_stores s
  = fallback_loop items user_lat user_lon max_distance_km rest (S i)
      (fallback_stores ++
       [fallback_record items user_lat user_lon i n
          (user_lat + fst lat_draw) (user_lon + fst lng_draw)
          (stated_selection n items (fst item_draws))
          (fst rating_draw) (fst reviews_draw)])
      (mkState (snd reviews_draw) (trace s)).
Proof.
  intros lat_draw lng_draw item_draws rating_draw reviews_draw Hne Hd.
  cbn [fallback_loop].
  rewrite (bind_ok_step _ _ _ _ _ (draw_step _ s)).
  erewrite bind_ok_step by apply draw_step.
  cbn [gen trace]. fold lat_draw. fold lng_draw. rewrite Hd.
  erewrite bind_ok_step by apply determine_available_products_draws.
  cbn [gen trace]. fold item_draws.
  erewrite bind_ok_step by apply draw_step.
  cbn [gen trace]. fold rating_draw.
  erewrite bind_ok_step by apply draw_step.
  cbn [gen trace]. fold reviews_draw.
  erewrite bind_ok_step
    by (apply truediv_nonzero; rewrite len_nil_iff; exact Hne).
  reflexivity.
Qed.

(** The records the fallback loop appends are those of the perturbed
    coordinates within range, one for one and in order. *)
Lemma fallback_loop_sites (names : list string) :
  forall i fallback_stores (s : state G) res s',
    fallback_loop items user_lat user_lon max_distance_km names i
      fallback_stores s = (Ok res, s') ->
    exists out,
      res = fallback_stores ++ out
      /\ Forall2 (fallback_built items user_lat user_lon)
           (fallback_sites items user_lat user_lon max_distance_km names i
              (gen s))
           out.
Proof.
  induction names as [| n rest IH]; intros i acc s res s' E.
  - cbn in E. unfold ret in E. injection E as <- <-.
    exists []. rewrite app_nil_r. split; [reflexivity | constructor].
  - cbn [fallback_sites]. cbv zeta.
    destruct (Float.leb
                (calculate_distance user_lat user_lon
                   (user_lat + fst (uniform (-0.05) 0.05 (gen s)))
                   (user_lon
                    + fst (uniform (-0.05) 0.05
                             (snd (uniform (-0.05) 0.05 (gen s))))))
                max_distance_km) eqn:Hd.
    + assert (Hne : items <> []).
      { intros Hnil. cbn [fallback_loop] in E.
        rewrite (bind_ok_step _ _ _ _ _ (draw_step _ s)) in E.
        erewrite bind_ok_step in E by apply draw_step.
        cbn [gen trace] in E. rewrite Hd in E.
        erewrite bind_ok_step in E
          by apply determine_available_products_draws.
        erewrite bind_ok_step in E by apply draw_step.
        erewrite bind_ok_step in E by apply draw_step.
        erewrite bind_raise_step in E
          by (rewrite (proj2 (len_nil_iff items) Hnil); apply truediv_zero).
        discriminate. }
      rewrite (fallback_loop_near n rest i acc s Hne Hd) in E.
      apply IH in E. destruct E as (out & -> & Hout).
      eexists (_ :: out). rewrite <- app_assoc. split; [reflexivity |].
      constructor; [| exact Hout].
      eexists _, _, _. reflexivity.
    + rewrite (fallback_loop_far n rest i acc s Hd) in E.
      apply IH in E. exact E.
Qed.

Lemma fallback_sites_within (names : list string) :
  forall i (g : G),
    Forall (site_in_range user_lat user_lon max_distance_km)
      (fallback_sites items user_lat user_lon max_distance_km names i g).
Proof.
  induction names as [| n rest IH]; intros i g; cbn [fallback_sites];
    [constructor |].
  cbv zeta. destruct (Float.leb _ max_distance_km) eqn:Hd; [| apply IH].
  constructor; [| apply IH].
  unfold site_in_range. cbn [site_lat site_lng]. apply leb_le. exact Hd.
Qed.

End Steps.

(** C2: a list returned by [search_stores] is the live records followed by
    the fallback records.  The live records are, one for one and in order,
    the records of the places the loop keeps, and each of these is one of
    the places searched, at most max_distance_km from the origin by the
    haversine distance; a place beyond that distance is never kept.  The
    fallback records, present only below three live records, are, one for
    one and in order, the records of the perturbed coordinates drawn for the
    first six chain names that lie at most max_distance_km from the origin;
    a coordinate beyond that distance leaves no record. *)
Theorem no_store_beyond_max_distance :
  forall (G : Type) (RNG : Generator G) (api : Services)
         (items : list string) (location : string) (max_distance_km : R)
         (s : state G) (stores : list Store.t) (s' : state G),
    search_stores api items location max_distance_km s = (Ok stores, s') ->
    exists origin places s1 live s2 fallback,
      place_search api location max_distance_km s = (Ok (origin, places), s1)
      /\ fst (geocode_location api location s) = Ok origin
      /\ place_loop items (fst origin) (snd origin) max_distance_km places
           [] [] s1 = (Ok live, s2)
      /\ stores = live ++ fallback
      /\ Forall2 (built_from (fst origin) (snd origin))
           (kept (fst origin) (snd origin) max_distance_km places []) live
      /\ Forall
           (fun p =>
              In p places
              /\ distance_to (fst origin) (snd origin) p <= max_distance_km)
           (kept (fst origin) (snd origin) max_distance_km places [])
      /\ Forall2 (fallback_built items (fst origin) (snd origin))
           (if (len live <? 3)%Z
            then fallback_sites items (fst origin) (snd origin)
                   max_distance_km (firstn 6 common_stores) 0 (gen s2)
            else [])
           fallback
      /\ Forall (site_in_range (fst origin) (snd origin) max_distance_km)
           (fallback_sites items (fst origin) (snd origin) max_distance_km
              (firstn 6 common_stores) 0 (gen s2)).
Proof.
  intros G RNG api items location max_distance_km s stores s' E.
  destruct (place_search_total api location max_distance_km s)
    as (origin & places & s1 & Ep & Eg & _).
  rewrite search_stores_stages in E.
  rewrite (bind_ok_step _ _ _ _ _ Ep) in E.
  unfold aggregate in E. cbn [fst snd] in E.
  apply bind_ok_inv in E. destruct E as (live & s2 & El & E).
  exists origin, places, s1, live, s2.
  pose proof (place_loop_ok_inv _ _ _ _ _ _ _ _ _ _ El) as (out & Hout & Hlive & _).
  cbn [app] in Hout. subst out.
  assert (Hbuilt : Forall2 (built_from (fst origin) (snd origin))
                     (kept (fst origin) (snd origin) max_distance_km places [])
                     live).
  { clear - Hlive.
    induction Hlive as [| p r ps rs [Hb _] _ IH]; constructor; auto. }
  assert (Hkept : Forall
                    (fun p =>
                       In p places
                       /\ distance_to (fst origin) (snd origin) p
                          <= max_distance_km)
                    (kept (fst origin) (snd origin) max_distance_km places [])).
  { apply Forall_forall. intros p Hp. apply kept_In in Hp. tauto. }
  pose proof (fallback_sites_within items (fst origin) (snd origin)
                max_distance_km (firstn 6 common_stores) 0 (gen s2)) as Hin.
  destruct (len live <? 3)%Z.
  - apply bind_ok_inv in E. destruct E as (fb & s3 & Ef & E).
    unfold ret in E. injection E as <- <-.
    unfold get_fallback_stores in Ef.
    apply fallback_loop_sites in Ef. destruct Ef as (fb' & -> & Hfb).
    exists fb'. cbn [app]. repeat split; auto.
  - unfold ret in E. injection E as <- <-.
    exists []. rewrite app_nil_r. repeat split; auto.
Qed.

(** ** Concrete runs *)

Lemma PI_gt_3 : 3 < PI.
Proof. pose proof PI2_3_2. lra. Qed.

Lemma north_within lat lon lat' max :
  lat <= lat' <= lat + 180 -> 6371 * ((lat' - lat) * 4 / 180) <= max ->
  Float.leb (calculate_distance lat lon lat' lon) max = true.
Proof.
  intros Hl Hm. apply leb_le. rewrite calculate_distance_meridian by exact Hl.
  pose proof PI_4. nra.
Qed.

Lemma north_beyond lat lon lat' max :
  lat <= lat' <= lat + 180 -> max < 6371 * ((lat' - lat) * 3 / 180) ->
  Float.leb (calculate_distance lat lon lat' lon) max = false.
Proof.
  intros Hl Hm. apply leb_gt. rewrite calculate_distance_meridian by exact Hl.
  pose proof PI_gt_3. nra.
Qed.

Ltac eval_closed f :=
  repeat match goal with
  | |- context [f ?a ?b] =>
      let v := eval vm_compute in (f a b) in
      progress change (f a b) with v
  end.

Ltac decide_ltb :=
  repeat match goal with
  | |- context [Float.ltb ?u ?p] =>
      first
        [ rewrite (proj2 (ltb_lt u p)) by lra
        | rewrite (proj2 (ltb_ge u p)) by lra ]
  end.

Ltac select_items :=
  cbn [stated_selection]; unfold stated_probability;
  eval_closed Str.any_in; cbv beta iota zeta; decide_ltb; cbv beta iota.

Ltac expose_distance :=
  unfold distance_to, place_at;
  cbn [Place.lat Place.lng uniform Replay replay_uniform gen fst snd];
  rewrite ?Rplus_0_r.
Ltac north_near := expose_distance; apply north_within; lra.
Ltac north_far := expose_distance; apply north_beyond; lra.

Example lower_naturasi : Str.lower "NaturaSì BIO" = "naturasì bio"%string.
Proof. reflexivity. Qed.

Example probability_superstore : stated_probability "Esselunga" "pasta" = 0.75.
Proof. unfold stated_probability. eval_closed Str.any_in. reflexivity. Qed.

Example probability_discount : stated_probability "MD Discount" "latte" = 0.6.
Proof. unfold stated_probability. eval_closed Str.any_in. reflexivity. Qed.

Example probability_organic_store :
  stated_probability "NaturaSì" "pasta integrale" = 0.9.
Proof. unfold stated_probability. eval_closed Str.any_in. reflexivity. Qed.

(** A store matched by "fresco" alone is in the 0.8 class but not among
    [organic_store_keywords]: an organic item gets 0.4 there. *)
Example probability_fresco_store :
  stated_probability "Fresco Market" "latte" = 0.8
  /\ stated_probability "Fresco Market" "latte bio" = 0.4.
Proof.
  split; unfold stated_probability; eval_closed Str.any_in; reflexivity.
Qed.

(** One hundredth of a degree north is between 1.06 and 1.42 km. *)
Example distance_north_hundredth :
  1.06 < calculate_distance 45 9 45.01 9 < 1.42.
Proof.
  rewrite calculate_distance_meridian by lra.
  pose proof PI_gt_3. pose proof PI_4. split; nra.
Qed.

Lemma sample_place_search :
  place_search sample_api "Bergamo" 5 s0 =
    (Ok ((45, 9), two_branches), mkState tape1 (searched 5)).
Proof. reflexivity. Qed.

Lemma sample_live :
  place_loop pasta_latte 45 9 5 two_branches [] [] (mkState tape1 (searched 5)) =
    (Ok [ live_record pasta_latte 45 9 (place_at "Esselunga" 45.01 9)
            ["pasta"%string] ],
     mkState (skipn 2 tape1) (searched 5)).
Proof.
  unfold two_branches, pasta_latte.
  rewrite place_loop_near; [| discriminate | reflexivity | north_near].
  rewrite place_loop_seen by reflexivity.
  cbn [place_loop app List.length len gen trace draws random Replay
       replay_random fst snd tape1 place_at Place.name].
  select_items.
  reflexivity.
Qed.

Lemma sample_fallback :
  get_fallback_stores pasta_latte "Bergamo" 45 9 5
    (mkState (skipn 2 tape1) (searched 5)) =
    (Ok [ fallback_record pasta_latte 45 9 0 "Esselunga" (45 + 0.01) (9 + 0)
            ["pasta"; "latte"]%string 4.2 100 ],
     mkState [] (searched 5)).
Proof.
  unfold get_fallback_stores, pasta_latte.
  cbn [firstn common_stores skipn tape1].
  rewrite fallback_loop_near; [| discriminate | north_near].
  cbn [uniform randint Replay replay_uniform replay_randint gen trace fst snd
       draws random replay_random List.length tl].
  select_items.
  do 5 (rewrite fallback_loop_far by north_far;
        cbn [uniform Replay replay_uniform gen trace fst snd]).
  reflexivity.
Qed.

(** A search for pasta and latte around (45, 9) within 5 km: one record for
    the two live branches, one fallback record of the same name. *)
Lemma sample_run :
  search_stores sample_api pasta_latte "Bergamo" 5 s0 =
    (Ok [ live_record pasta_latte 45 9 (place_at "Esselunga" 45.01 9)
            ["pasta"%string];
          fallback_record pasta_latte 45 9 0 "Esselunga" (45 + 0.01) (9 + 0)
            ["pasta"; "latte"]%string 4.2 100 ],
     mkState [] (searched 5)).
Proof.
  rewrite search_stores_stages.
  rewrite (bind_ok_step _ _ _ _ _ sample_place_search).
  unfold aggregate. cbn [fst snd].
  rewrite (bind_ok_step _ _ _ _ _ sample_live).
  change (len [_] <? 3)%Z with true. cbv beta iota.
  rewrite (bind_ok_step _ _ _ _ _ sample_fallback).
  reflexivity.
Qed.

(** Two far branches of one chain: the loop emits no record. *)
Lemma far_branches_run (s : state (list R)) :
  place_loop pasta_latte 45 9 5 two_far_branches [] [] s = (Ok [], s).
Proof.
  unfold two_far_branches.
  rewrite place_loop_far; [| reflexivity | north_far].
  rewrite place_loop_seen by reflexivity.
  reflexivity.
Qed.

Lemma shadow_place_search :
  place_search shadow_api "Bergamo" 1 s_far =
    (Ok ((45, 9), far_then_near), mkState tape_far (searched 1)).
Proof. reflexivity. Qed.

(** No item, a near branch behind a far one of the same name, and every
    fallback coordinate out of range: an empty list, no exception. *)
Lemma shadow_run :
  search_stores shadow_api [] "Bergamo" 1 s_far =
    (Ok [], mkState [] (searched 1)).
Proof.
  rewrite search_stores_stages.
  rewrite (bind_ok_step _ _ _ _ _ shadow_place_search).
  unfold aggregate, far_then_near. cbn [fst snd].
  assert (El : place_loop [] 45 9 1
                 [place_at "Conad" 46 9; place_at "Conad" 45.001 9] [] []
                 (mkState tape_far (searched 1))
               = (Ok [], mkState tape_far (searched 1))).
  { rewrite place_loop_far; [| reflexivity | north_far].
    rewrite place_loop_seen by reflexivity.
    reflexivity. }
  rewrite (bind_ok_step _ _ _ _ _ El).
  change (len [] <? 3)%Z with true. cbv beta iota.
  assert (Ef : get_fallback_stores [] "Bergamo" 45 9 1
                 (mkState tape_far (searched 1))
               = (Ok [], mkState [] (searched 1))).
  { unfold get_fallback_stores, tape_far. cbn [firstn common_stores].
    do 6 (rewrite fallback_loop_far by north_far;
          cbn [uniform Replay replay_uniform gen trace fst snd]).
    reflexivity. }
  rewrite (bind_ok_step _ _ _ _ _ Ef).
  reflexivity.
Qed.

Lemma near_branch_in_range :
  In (place_at "Conad" 45.001 9) far_then_near
  /\ distance_to 45 9 (place_at "Conad" 45.001 9) <= 1.
Proof.
  split; [right; left; reflexivity |].
  apply leb_le. north_near.
Qed.

(** ** Deduplication by name *)

Section Dedup.

Variables (user_lat user_lon max_distance_km : R).

(** A kept place is the first of its name in the list. *)
Lemma kept_first places : forall seen q,
  In q (kept user_lat user_lon max_distance_km places seen) ->
  first_named (Place.name q) places = Some q.
Proof.
  unfold first_named.
  induction places as [| x rest IH]; intros seen q Hin; [contradiction |].
  pose proof (kept_In _ _ _ _ _ _ Hin) as (_ & _ & Hq).
  cbn [kept find] in *.
  destruct (Str.mem (Place.name x) seen) eqn:Hx.
  - destruct (String.eqb_spec (Place.name x) (Place.name q)) as [E | _].
    + congruence.
    + eapply IH; eassumption.
  - assert (Hstep : In q (kept user_lat user_lon max_distance_km rest
                            (Place.name x :: seen)) ->
                    (if String.eqb (Place.name x) (Place.name q)
                     then Some x
                     else find (fun p => String.eqb (Place.name p) (Place.name q))
                            rest) = Some q).
    { intros Hin'.
      pose proof (kept_In _ _ _ _ _ _ Hin') as (_ & _ & Hq').
      rewrite mem_cons in Hq'. apply orb_false_elim in Hq'.
      destruct Hq' as [-> _]. eapply IH; eassumption. }
    destruct (Float.leb _ max_distance_km).
    + destruct Hin as [<- | Hin]; [| auto].
      rewrite String.eqb_refl. reflexivity.
    + auto.
Qed.

Lemma filter_length_pos {A} (f : A -> bool) (l : list A) :
  (0 < List.length (filter f l))%nat -> exists x, In x l /\ f x = true.
Proof.
  induction l as [| a l IH]; cbn; [lia |].
  destruct (f a) eqn:Ha.
  - intros _. exists a. auto.
  - intros Hl. destruct (IH Hl) as (x & Hx & Hf). exists x. auto.
Qed.

Lemma Forall2_In_left {A B} (P : A -> B -> Prop) l l' x :
  Forall2 P l l' -> In x l -> exists y, In y l' /\ P x y.
Proof.
  induction 1 as [| a b l l' Hab _ IH]; [contradiction |].
  intros [<- | Hin].
  - exists b. split; [now left | exact Hab].
  - destruct (IH Hin) as (y & Hy & Hxy). exists y. split; [now right | exact Hxy].
Qed.

End Dedup.

(** C3 (as amended): whenever the aggregation loop returns, it has produced
    at most one record per name: exactly one, built from the first place of
    that name, when that first place lies within max_distance_km; none when
    that first place lies beyond max_distance_km, whatever the later places
    of the name are; none when no place has the name.  Later places of a
    name are always skipped. *)
Theorem at_most_one_record_per_name :
  forall (G : Type) (RNG : Generator G) (items : list string)
         (user_lat user_lon max_distance_km : R) (places : list Place.t)
         (s : state G) (live : list Store.t) (s' : state G),
    place_loop items user_lat user_lon max_distance_km places [] [] s
      = (Ok live, s') ->
    forall n : string,
      (count_name n live <= 1)%nat
      /\ (first_named n places = None -> count_name n live = 0%nat)
      /\ (forall p,
            first_named n places = Some p ->
            (distance_to user_lat user_lon p <= max_distance_km ->
             count_name n live = 1%nat
             /\ exists r, In r live /\ built_from user_lat user_lon p r)
            /\ (max_distance_km < distance_to user_lat user_lon p ->
                count_name n live = 0%nat)).
Proof.
  intros G RNG items user_lat user_lon max_distance_km places s live s' E n.
  apply place_loop_ok_inv in E. destruct E as (out & -> & Hout & _).
  cbn [app].
  assert (Hc := built_count user_lat user_lon items n _ _ Hout).
  rewrite kept_count in Hc. cbn in Hc.
  split; [| split].
  - rewrite Hc. destruct (first_named n places) as [p |]; [| lia].
    destruct (Float.leb _ max_distance_km); lia.
  - intros Hnone. rewrite Hnone in Hc. exact Hc.
  - intros p Hp. rewrite Hp in Hc. split.
    + intros Hd. rewrite (proj2 (leb_le _ _) Hd) in Hc. split; [exact Hc |].
      assert (Hk : (0 < List.length
                        (filter (fun q => String.eqb (Place.name q) n)
                           (kept user_lat user_lon max_distance_km places
                              [])))%nat).
      { rewrite kept_count. cbn. rewrite Hp, (proj2 (leb_le _ _) Hd). lia. }
      apply filter_length_pos in Hk. destruct Hk as (q & Hq & Hn).
      apply String.eqb_eq in Hn.
      pose proof (kept_first _ _ _ _ _ _ Hq) as Hf.
      rewrite Hn, Hp in Hf. injection Hf as ->.
      destruct (Forall2_In_left _ _ _ _ Hout Hq) as (r & Hr & Hb & _).
      exists r. auto.
    + intros Hd. rewrite (proj2 (leb_gt _ _) Hd) in Hc. exact Hc.
Qed.

(** C3, as stated, fails: two places of one name, both beyond
    max_distance_km, leave no record of that name. *)
Lemma same_name_far_branches_no_record :
  (2 <= List.length
          (filter (fun p => String.eqb (Place.name p) "Conad") two_far_branches))%nat
  /\ exists live s',
       place_loop pasta_latte 45 9 5 two_far_branches [] [] s0 = (Ok live, s')
       /\ count_name "Conad" live <> 1%nat.
Proof.
  split; [vm_compute; lia |].
  exists [], s0. split; [apply far_branches_run | discriminate].
Qed.

Lemma at_most_one_record_per_name_witness :
  place_loop pasta_latte 45 9 5 two_branches [] [] (mkState tape1 (searched 5))
    = (Ok [ live_record pasta_latte 45 9 (place_at "Esselunga" 45.01 9)
              ["pasta"%string] ],
       mkState (skipn 2 tape1) (searched 5))
  /\ (count_name "Esselunga"
        [ live_record pasta_latte 45 9 (place_at "Esselunga" 45.01 9)
            ["pasta"%string] ] <= 1)%nat.
Proof.
  split; [exact sample_live |].
  exact (proj1 (at_most_one_record_per_name _ _ _ _ _ _ _ _ _ _ sample_live
                  "Esselunga")).
Defined.

(** ** The fallback step *)



(** ** The text-search supplement *)

(** C8: when the nearby search yields fewer than three places,
    [search_stores] sends one text query per name among the first three
    chain names and runs its loop over the nearby places followed by all the
    text results, none removed; a text search that fails yields the empty
    list and raises nothing. *)
Theorem text_search_supplement :
  forall (G : Type) (RNG : Generator G) (api : Services)
         (location : string) (max_distance_km : R)
         (s : state G) (origin : R * R) (s1 : state G)
         (near : list Place.t) (s2 : state G),
    geocode_location api location s = (Ok origin, s1) ->
    search_places_nearby api (fst origin) (snd origin)
      (max_distance_km * 1000) "supermarket" s1 = (Ok near, s2) ->
    (len near < 3)%Z ->
    place_search api location max_distance_km s
      = (Ok (origin,
             near ++
             List.concat
               (map (fun q => ok_results (textsearch_json api q))
                    (text_queries location))),
         mkState (gen s2)
           (trace s2 ++ map GetTextSearch (text_queries location)))
    /\ text_queries location
       = [ ("Esselunga " ++ location)%string;
           ("Conad " ++ location)%string;
           ("Coop " ++ location)%string ]
    /\ (forall items,
          search_stores api items location max_distance_km s
          = bind (place_search api location max_distance_km)
                 (aggregate items location max_distance_km) s)
    /\ (forall query (st : state G),
          search_failed (textsearch_json api query) ->
          search_places_text api query location st
          = (Ok [], mkState (gen st) (trace st ++ [GetTextSearch query]))).
Proof.
  intros G RNG api location max_distance_km s origin s1 near s2 Eg En Hlt.
  split; [| split; [reflexivity | split]].
  - unfold place_search.
    rewrite (bind_ok_step _ _ _ _ _ Eg), (bind_ok_step _ _ _ _ _ En).
    destruct (Z.ltb_spec (len near) 3); [| lia].
    erewrite bind_ok_step by apply text_loop_spec.
    unfold text_queries. rewrite !map_map. reflexivity.
  - intros items. apply search_stores_stages.
  - intros query st Hf. rewrite search_places_text_spec.
    unfold ok_results, search_failed in *.
    destruct (textsearch_json api query) as [e | status results];
      [reflexivity |].
    destruct (String.eqb_spec status "OK"); [contradiction | reflexivity].
Qed.

Lemma text_search_supplement_witness :
  place_search sample_api "Bergamo" 5 s0
  = (Ok ((45, 9),
         two_branches ++
         List.concat
           (map (fun q => ok_results (textsearch_json sample_api q))
                (text_queries "Bergamo"))),
     mkState tape1
       ([GetGeocode "Bergamo"; GetNearbySearch 45 9 (5 * 1000) "supermarket"]
        ++ map GetTextSearch (text_queries "Bergamo"))).
Proof.
  refine (proj1 (text_search_supplement _ _ sample_api "Bergamo" 5 s0 (45, 9)
                   (mkState tape1 [GetGeocode "Bergamo"]) two_branches
                   (mkState tape1
                      [GetGeocode "Bergamo";
                       GetNearbySearch 45 9 (5 * 1000) "supermarket"])
                   _ _ _)).
  - reflexivity.
  - reflexivity.
  - reflexivity.
Defined.

(** ** The empty item list *)

Section NoItems.

Context {G : Type} `{Generator G}.

Lemma kept_nonempty user_lat user_lon max_distance_km places n p :
  first_named n places = Some p ->
  distance_to user_lat user_lon p <= max_distance_km ->
  kept user_lat user_lon max_distance_km places [] <> [].
Proof.
  intros Hp Hd Hk.
  pose proof (kept_count user_lat user_lon max_distance_km n places []) as Hc.
  rewrite Hk, Hp, (proj2 (leb_le _ _) Hd) in Hc. cbn in Hc. discriminate.
Qed.

Lemma aggregate_no_items location max_distance_km origin places (s : state G) :
  (exists n p,
      first_named n places = Some p
      /\ distance_to (fst origin) (snd origin) p <= max_distance_km)
  \/ perturbed_in_range (fst origin) (snd origin) max_distance_km 6 (gen s)
     = true ->
  exists s',
    aggregate [] location max_distance_km (origin, places) s
    = (Raise ZeroDivisionError, s').
Proof.
  intros Hcase. unfold aggregate. cbn [fst snd]. unfold bind at 1.
  rewrite place_loop_no_items by reflexivity.
  destruct (kept (fst origin) (snd origin) max_distance_km places []) eqn:Hk.
  - destruct Hcase as [(n & p & Hp & Hd) | Hfb].
    + exfalso. exact (kept_nonempty _ _ _ _ _ _ Hp Hd Hk).
    + change (len [] <? 3)%Z with true. cbv beta iota.
      pose proof (fallback_loop_no_items [] (fst origin) (snd origin)
                    max_distance_km (firstn 6 common_stores) eq_refl 0 [] s)
        as Hloop.
      change (List.length (firstn 6 common_stores)) with 6%nat in Hloop.
      rewrite Hfb in Hloop. destruct Hloop as (s' & Hloop).
      exists s'. unfold get_fallback_stores.
      rewrite (bind_raise_step _ _ _ _ _ Hloop). reflexivity.
  - exists s. reflexivity.
Qed.

End NoItems.

(** C9 (as amended): with the empty item list, [search_stores] raises
    ZeroDivisionError as soon as the place list has a place within range
    that is the first of its name, or one of the six perturbed fallback
    coordinates is within range; with a non-empty item list it returns; and
    the search button is disabled while the item list is empty. *)
Theorem empty_item_list_divides_by_zero :
  forall (G : Type) (RNG : Generator G) (api : Services)
         (location : string) (max_distance_km : R)
         (s : state G) (origin : R * R) (places : list Place.t)
         (s1 : state G),
    place_search api location max_distance_km s = (Ok (origin, places), s1) ->
    (exists n p,
        first_named n places = Some p
        /\ distance_to (fst origin) (snd origin) p <= max_distance_km)
    \/ perturbed_in_range (fst origin) (snd origin) max_distance_km 6 (gen s1)
       = true ->
    (exists s',
        search_stores api [] location max_distance_km s
        = (Raise ZeroDivisionError, s'))
    /\ (forall items,
          items <> [] ->
          exists stores s',
            search_stores api items location max_distance_km s
            = (Ok stores, s'))
    /\ (forall where_, search_button_disabled [] where_ = true).
Proof.
  intros G RNG api location max_distance_km s origin places s1 Ep Hcase.
  split; [| split].
  - rewrite search_stores_stages, (bind_ok_step _ _ _ _ _ Ep).
    apply aggregate_no_items. exact Hcase.
  - intros items Hne. apply search_stores_total. exact Hne.
  - intros where_. reflexivity.
Qed.

(** C9, as stated, fails: with no item, a place within range whose name was
    seen on a place out of range never reaches the division, and the search
    returns the empty list. *)
Lemma empty_items_shadowed_place_returns :
  In (place_at "Conad" 45.001 9) far_then_near
  /\ distance_to 45 9 (place_at "Conad" 45.001 9) <= 1
  /\ place_search shadow_api "Bergamo" 1 s_far
     = (Ok ((45, 9), far_then_near), mkState tape_far (searched 1))
  /\ search_stores shadow_api [] "Bergamo" 1 s_far
     = (Ok [], mkState [] (searched 1)).
Proof.
  split; [apply near_branch_in_range |].
  split; [apply near_branch_in_range |].
  split; [exact shadow_place_search | exact shadow_run].
Qed.

Lemma first_branch_in_range :
  exists n p,
    first_named n two_branches = Some p
    /\ distance_to (fst (45, 9)) (snd (45, 9)) p <= 5.
Proof.
  exists "Esselunga"%string, (place_at "Esselunga" 45.01 9).
  split; [reflexivity |].
  apply leb_le. cbn [fst snd]. north_near.
Defined.

Lemma empty_item_list_divides_by_zero_witness :
  exists s',
    search_stores sample_api [] "Bergamo" 5 s0 = (Raise ZeroDivisionError, s').
Proof.
  exact (proj1 (empty_item_list_divides_by_zero _ _ sample_api "Bergamo" 5 s0
                  (45, 9) two_branches _ sample_place_search
                  (or_introl first_branch_in_range))).
Defined.

(** ** Names across the fallback step *)

(** C10: [get_fallback_stores] is not given the names already processed,
    and a search can return two records of one name: with one live
    Esselunga within range, fewer than three live records, and the first
    perturbed coordinate within range, the list holds a live and a fallback
    Esselunga. *)
Theorem fallback_repeats_live_name :
  exists stores s',
    search_stores sample_api pasta_latte "Bergamo" 5 s0 = (Ok stores, s')
    /\ map Store.name stores = ["Esselunga"; "Esselunga"]%string
    /\ map Store.place_id stores = [""; "fallback_0"]%string
    /\ ~ NoDup (map Store.name stores)
    /\ count_name "Esselunga" stores = 2%nat.
Proof.
  eexists _, _. split; [exact sample_run |].
  split; [reflexivity |]. split; [reflexivity |]. split; [| reflexivity].
  cbn [map live_record fallback_record Store.name place_at Place.name].
  intros Hnd. inversion Hnd as [| x l Hnotin _]; subst.
  apply Hnotin. left. reflexivity.
Qed.

(** ** Applications at the sample inputs *)

Lemma store_records_consistent_witness :
  Forall
    (fun r =>
       record_consistent pasta_latte r
       /\ Store.match_percentage r
          = percentage (Store.products_count r) (len pasta_latte)
       /\ (Store.has_all_products r = true -> Store.match_percentage r = 100)
       /\ (Store.products_count r = 0%Z -> Store.match_percentage r = 0))
    [sample_live_record; sample_fallback_record].
Proof.
  refine (store_records_consistent _ _ sample_api pasta_latte "Bergamo" 5 s0
            _ _ sample_run _).
  discriminate.
Defined.

Lemma no_store_beyond_max_distance_witness :
  exists origin places s1 live s2 fallback,
    place_search sample_api "Bergamo" 5 s0 = (Ok (origin, places), s1)
    /\ fst (geocode_location sample_api "Bergamo" s0) = Ok origin
    /\ place_loop pasta_latte (fst origin) (snd origin) 5 places [] [] s1
       = (Ok live, s2)
    /\ [sample_live_record; sample_fallback_record] = live ++ fallback
    /\ Forall2 (built_from (fst origin) (snd origin))
         (kept (fst origin) (snd origin) 5 places []) live
    /\ Forall
         (fun p =>
            In p places /\ distance_to (fst origin) (snd origin) p <= 5)
         (kept (fst origin) (snd origin) 5 places [])
    /\ Forall2 (fallback_built pasta_latte (fst origin) (snd origin))
         (if (len live <? 3)%Z
          then fallback_sites pasta_latte (fst origin) (snd origin) 5
                 (firstn 6 common_stores) 0 (gen s2)
          else [])
         fallback
    /\ Forall (site_in_range (fst origin) (snd origin) 5)
         (fallback_sites pasta_latte (fst origin) (snd origin) 5
            (firstn 6 common_stores) 0 (gen s2)).
Proof.
  exact (no_store_beyond_max_distance _ _ sample_api pasta_latte "Bergamo" 5
           s0 _ _ sample_run).
Defined.

Lemma geocode_location_fallback_witness :
  exists notice,
    geocode_location offline "Bergamo" s0
    = (Ok (45.698, 9.677),
       mkState (gen s0) (trace s0 ++ [GetGeocode "Bergamo"; notice]))
    /\ ((exists msg, notice = StWarning msg)
        \/ (exists msg, notice = StError msg)).
Proof.
  apply (geocode_location_fallback _ _ offline "Bergamo" s0). exact I.
Defined.

(** * Part IV: further properties of the code *)

(** ** The haversine formula and the central angle *)

Lemma sin_half_sq x : (sin (x / 2)) ^ 2 = (1 - cos x) / 2.
Proof.
  pose proof (cos_2a_sin (x / 2)) as Hc.
  replace (2 * (x / 2)) with x in Hc by lra.
  rewrite Hc. field.
Qed.

Lemma cosine_rule_bound p q k :
  -1 <= k <= 1 ->
  -1 <= sin p * sin q + cos p * cos q * k <= 1.
Proof.
  intros Hk.
  pose proof (sin2_cos2 p) as Hp. pose proof (sin2_cos2 q) as Hq.
  unfold Rsqr in *.
  set (s1 := sin p) in *. set (c1 := cos p) in *.
  set (s2 := sin q) in *. set (c2 := cos q) in *.
  assert (Hk2 : 0 <= c2 * c2 * (1 - k * k)).
  { apply Rmult_le_pos; nra. }
  pose proof (pow2_ge_0 (s1 + s2)) as Ha.
  pose proof (pow2_ge_0 (c1 + k * c2)) as Hb.
  pose proof (pow2_ge_0 (s1 - s2)) as Hc.
  pose proof (pow2_ge_0 (c1 - k * c2)) as Hd.
  split; nra.
Qed.

Lemma haversine_term_cosine lat1 lon1 lat2 lon2 :
  haversine_term lat1 lon1 lat2 lon2
  = (1 - (sin (Float.radians lat1) * sin (Float.radians lat2)
          + cos (Float.radians lat1) * cos (Float.radians lat2)
            * cos (Float.radians lon2 - Float.radians lon1))) / 2.
Proof.
  unfold haversine_term. rewrite !sin_half_sq, cos_minus. field.
Qed.

Lemma calculate_distance_haversine_term lat1 lon1 lat2 lon2 :
  calculate_distance lat1 lon1 lat2 lon2
  = 6371 * (2 * asin (sqrt (haversine_term lat1 lon1 lat2 lon2))).
Proof. reflexivity. Qed.

Lemma distance_is_arc lat1 lon1 lat2 lon2 :
  calculate_distance lat1 lon1 lat2 lon2
  = 6371 * central_angle lat1 lon1 lat2 lon2.
Proof.
  rewrite calculate_distance_haversine_term, haversine_term_cosine.
  unfold central_angle.
  set (t := sin (Float.radians lat1) * sin (Float.radians lat2)
            + cos (Float.radians lat1) * cos (Float.radians lat2)
              * cos (Float.radians lon2 - Float.radians lon1)).
  assert (Ht : -1 <= t <= 1).
  { apply cosine_rule_bound.
    pose proof (COS_bound (Float.radians lon2 - Float.radians lon1)). lra. }
  pose proof (acos_bound t) as Hb.
  rewrite <- (cos_acos t Ht) at 1.
  rewrite <- sin_half_sq.
  rewrite sqrt_pow2 by (apply sin_ge_0; lra).
  rewrite asin_sin by lra.
  field.
Qed.

(** X1: the haversine formula of [calculate_distance] gives the arc of the
    great circle: 6371 times the central angle between the two coordinates,
    as the law of cosines defines it. *)
Theorem calculate_distance_is_arc :
  forall lat1 lon1 lat2 lon2 : R,
    calculate_distance lat1 lon1 lat2 lon2
    = 6371 * central_angle lat1 lon1 lat2 lon2.
Proof. exact distance_is_arc. Qed.

Lemma distance_nonneg lat1 lon1 lat2 lon2 :
  0 <= calculate_distance lat1 lon1 lat2 lon2.
Proof.
  rewrite distance_is_arc. unfold central_angle.
  match goal with |- context [acos ?t] => pose proof (acos_bound t) end.
  nra.
Qed.

(** X2: for all coordinates the term under the square root lies between 0
    and 1, so the square root and the arc sine are taken where they are
    defined, and the distance lies between 0 and half the circumference,
    6371 * pi km. *)
Theorem calculate_distance_range :
  forall lat1 lon1 lat2 lon2 : R,
    0 <= haversine_term lat1 lon1 lat2 lon2 <= 1
    /\ calculate_distance lat1 lon1 lat2 lon2
       = 6371 * (2 * asin (sqrt (haversine_term lat1 lon1 lat2 lon2)))
    /\ 0 <= calculate_distance lat1 lon1 lat2 lon2 <= 6371 * PI.
Proof.
  intros lat1 lon1 lat2 lon2. split; [| split; [reflexivity |]].
  - rewrite haversine_term_cosine.
    pose proof (cosine_rule_bound (Float.radians lat1) (Float.radians lat2)
                  (cos (Float.radians lon2 - Float.radians lon1))) as Hb.
    pose proof (COS_bound (Float.radians lon2 - Float.radians lon1)).
    lra.
  - rewrite distance_is_arc. unfold central_angle.
    match goal with |- context [acos ?t] => pose proof (acos_bound t) end.
    nra.
Qed.

(** X3: between two coordinates on one meridian, at most half a turn apart,
    the distance is the radius times the difference of the latitudes in
    radians (111.19 km per degree). *)
Theorem calculate_distance_on_meridian :
  forall lat1 lat2 lon : R,
    Rabs (lat2 - lat1) <= 180 ->
    calculate_distance lat1 lon lat2 lon
    = 6371 * (Rabs (lat2 - lat1) * PI / 180).
Proof.
  intros lat1 lat2 lon Hd.
  destruct (Rle_dec lat1 lat2) as [Hle | Hgt].
  - rewrite Rabs_right in * by lra.
    apply calculate_distance_meridian. lra.
  - rewrite Rabs_left in * by lra.
    rewrite calculate_distance_sym, calculate_distance_meridian by lra.
    f_equal. field.
Qed.

Lemma calculate_distance_on_meridian_witness :
  calculate_distance 45 9 46 9 = 6371 * (Rabs (46 - 45) * PI / 180).
Proof.
  apply calculate_distance_on_meridian.
  rewrite Rabs_right; lra.
Defined.

(** X4: the distance depends on the longitudes through their difference
    only, and a whole turn of 360 degrees added to a longitude does not
    change it. *)
Theorem calculate_distance_longitude_shift :
  forall lat1 lon1 lat2 lon2 d : R,
    calculate_distance lat1 (lon1 + d) lat2 (lon2 + d)
    = calculate_distance lat1 lon1 lat2 lon2
    /\ calculate_distance lat1 lon1 lat2 (lon2 + 360)
       = calculate_distance lat1 lon1 lat2 lon2
    /\ calculate_distance lat1 (lon1 + 360) lat2 lon2
       = calculate_distance lat1 lon1 lat2 lon2.
Proof.
  intros lat1 lon1 lat2 lon2 d.
  assert (Hturn : forall a b c e,
             calculate_distance a b c (e + 360) = calculate_distance a b c e).
  { intros a b c e. rewrite !distance_is_arc. unfold central_angle.
    replace (Float.radians (e + 360) - Float.radians b)
      with (Float.radians e - Float.radians b + 2 * PI)
      by (unfold Float.radians; field).
    rewrite (cos_plus _ (2 * PI)), cos_2PI, sin_2PI.
    rewrite Rmult_1_r, Rmult_0_r, Rminus_0_r. reflexivity. }
  split; [| split].
  - unfold calculate_distance; cbv zeta.
    replace (Float.radians (lon2 + d) - Float.radians (lon1 + d))
      with (Float.radians lon2 - Float.radians lon1)
      by (unfold Float.radians; field).
    reflexivity.
  - apply Hturn.
  - rewrite (calculate_distance_sym lat1 (lon1 + 360)), Hturn.
    apply calculate_distance_sym.
Qed.

(** ** The shape of the records *)

Lemma list_nil_or_not {A} (l : list A) : l = [] \/ l <> [].
Proof. destruct l; [left; reflexivity | right; discriminate]. Qed.

Lemma stated_selection_subseq store_name items :
  forall us, subseq (stated_selection store_name items us) items.
Proof.
  induction items as [| item rest IH]; intros us.
  - destruct us; constructor.
  - destruct us as [| u us'].
    + apply subseq_nil_any.
    + cbn [stated_selection].
      destruct (Float.ltb u (stated_probability store_name item)).
      * apply subseq_take, IH.
      * apply subseq_skip, IH.
Qed.

Lemma subseq_same_length {A} (l1 l2 : list A) :
  subseq l1 l2 -> List.length l1 = List.length l2 -> l1 = l2.
Proof.
  induction 1 as [| x l1 l2 Hs IH | x l1 l2 Hs IH]; cbn; intros Hl.
  - reflexivity.
  - apply subseq_length in Hs. lia.
  - f_equal. apply IH. lia.
Qed.

Lemma subseq_NoDup {A} (l1 l2 : list A) :
  subseq l1 l2 -> NoDup l2 -> NoDup l1.
Proof.
  induction 1 as [| x l1 l2 Hs IH | x l1 l2 Hs IH]; intros Hnd.
  - constructor.
  - inversion Hnd; subst. auto.
  - inversion Hnd as [| y l Hnotin Hnd']; subst.
    constructor; [| auto].
    intros Hin. apply Hnotin. eapply subseq_In; eassumption.
Qed.

Lemma first_six_NoDup : NoDup (firstn 6 common_stores).
Proof.
  cbn [firstn common_stores].
  repeat
    (constructor;
     [ cbn [In]; intros Hin;
       repeat (destruct Hin as [Hin | Hin]; [discriminate Hin |]);
       exact Hin
     | ]).
  constructor.
Qed.

Section Shapes.

Context {G : Type} `{Generator G}.
Variables (items : list string) (user_lat user_lon max_distance_km : R).

(** Whenever the loop returns, what it appended is the list of the records
    of the kept places, each for some of the items. *)
Lemma place_loop_shapes (places : list Place.t) :
  forall stores_data seen (s : state G) res s',
    place_loop items user_lat user_lon max_distance_km places stores_data seen s
      = (Ok res, s') ->
    exists out,
      res = stores_data ++ out
      /\ Forall2
           (fun p r =>
              exists available,
                subseq available items
                /\ r = live_record items user_lat user_lon p available)
           (kept user_lat user_lon max_distance_km places seen) out.
Proof.
  destruct (list_nil_or_not items) as [Hnil | Hne].
  - intros acc seen s res s' E.
    rewrite place_loop_no_items in E by exact Hnil.
    destruct (kept user_lat user_lon max_distance_km places seen);
      [| discriminate].
    injection E as <- <-. exists []. rewrite app_nil_r. split; constructor.
  - induction places as [| p rest IH]; intros acc seen s res s' E.
    + cbn in E. unfold ret in E. injection E as <- <-.
      exists []. rewrite app_nil_r. split; constructor.
    + cbn [kept].
      destruct (Str.mem (Place.name p) seen) eqn:Hm.
      * rewrite place_loop_seen in E by exact Hm. eapply IH; exact E.
      * destruct (Float.leb (distance_to user_lat user_lon p) max_distance_km)
          eqn:Hd.
        -- rewrite place_loop_near in E by assumption.
           apply IH in E. destruct E as (out & -> & Hout).
           eexists (_ :: out). rewrite <- app_assoc. split; [reflexivity |].
           constructor; [| exact Hout].
           eexists. split; [apply stated_selection_subseq | reflexivity].
        -- rewrite place_loop_far in E by assumption. eapply IH; exact E.
Qed.

(** Whenever the fallback loop returns, each record it appended is the
    record of a name of the list, numbered by the position of the name. *)
Lemma fallback_loop_shapes (names : list string) :
  forall i fallback_stores (s : state G) res s',
    fallback_loop items user_lat user_lon max_distance_km names i
      fallback_stores s = (Ok res, s') ->
    exists out,
      res = fallback_stores ++ out
      /\ Forall
           (fun r =>
              exists j n lat lng available rating reviews,
                nth_error names j = Some n
                /\ calculate_distance user_lat user_lon lat lng
                   <= max_distance_km
                /\ subseq available items
                /\ r = fallback_record items user_lat user_lon (i + j) n
                         lat lng available rating reviews)
           out.
Proof.
  induction names as [| n rest IH]; intros i acc s res s' E.
  - cbn in E. unfold ret in E. injection E as <- <-.
    exists []. rewrite app_nil_r. split; constructor.
  - destruct (Float.leb
                (calculate_distance user_lat user_lon
                   (user_lat + fst (uniform (-0.05) 0.05 (gen s)))
                   (user_lon
                    + fst (uniform (-0.05) 0.05
                             (snd (uniform (-0.05) 0.05 (gen s))))))
                max_distance_km) eqn:Hd.
    + destruct (list_nil_or_not items) as [Hnil | Hne].
      * exfalso.
        pose proof (fallback_loop_no_items items user_lat user_lon
                      max_distance_km (n :: rest) Hnil i acc s) as Hraise.
        cbn [List.length perturbed_in_range] in Hraise.
        destruct (uniform (-0.05) 0.05 (gen s)) as [dlat g1].
        cbn [fst snd] in Hd.
        destruct (uniform (-0.05) 0.05 g1) as [dlng g2].
        cbn [fst snd] in Hd.
        rewrite Hd in Hraise. cbn [orb] in Hraise.
        destruct Hraise as (s1 & Hraise). congruence.
      * rewrite fallback_loop_near in E by assumption.
        apply IH in E. destruct E as (out & -> & Hout).
        eexists (_ :: out). rewrite <- app_assoc. split; [reflexivity |].
        constructor.
        -- exists 0%nat, n. eexists _, _, _, _, _.
           split; [reflexivity |]. split; [apply leb_le; exact Hd |].
           split; [apply stated_selection_subseq |].
           rewrite Nat.add_0_r. reflexivity.
        -- eapply Forall_impl; [| exact Hout].
           intros r (j & m & lat & lng & av & rating & reviews & Hj & Hr).
           exists (S j), m, lat, lng, av, rating, reviews.
           split; [exact Hj |]. rewrite Nat.add_succ_r. exact Hr.
    + rewrite fallback_loop_far in E by assumption.
      apply IH in E. destruct E as (out & -> & Hout).
      exists out. split; [reflexivity |].
      eapply Forall_impl; [| exact Hout].
      intros r (j & m & lat & lng & av & rating & reviews & Hj & Hr).
      exists (S j), m, lat, lng, av, rating, reviews.
      split; [exact Hj |]. rewrite Nat.add_succ_r. exact Hr.
Qed.

End Shapes.

Lemma kept_names_NoDup user_lat user_lon max_distance_km places :
  forall seen,
    NoDup (map Place.name (kept user_lat user_lon max_distance_km places seen)).
Proof.
  induction places as [| p rest IH]; intros seen; [constructor |].
  cbn [kept].
  destruct (Str.mem (Place.name p) seen); [apply IH |].
  destruct (Float.leb _ max_distance_km); [| apply IH].
  cbn [map]. constructor; [| apply IH].
  intros Hin. apply in_map_iff in Hin. destruct Hin as (q & Hq & Hin).
  apply kept_In in Hin. destruct Hin as (_ & _ & Hm).
  rewrite mem_cons, Hq, String.eqb_refl in Hm. discriminate.
Qed.

Lemma Forall2_map_names {A} (P : A -> Store.t -> Prop) (f : A -> string) l l' :
  Forall2 P l l' ->
  (forall x r, P x r -> Store.name r = f x) ->
  map Store.name l' = map f l.
Proof.
  intros HF Hn. induction HF as [| x r l l' Hxr _ IH]; [reflexivity |].
  cbn [map]. rewrite (Hn _ _ Hxr), IH. reflexivity.
Qed.

Lemma live_shapes_of_kept items origin places max_distance_km ks out :
  Forall2
    (fun p r =>
       exists available,
         subseq available items
         /\ r = live_record items (fst origin) (snd origin) p available)
    ks out ->
  (forall p,
      In p ks ->
      In p places
      /\ distance_to (fst origin) (snd origin) p <= max_distance_km) ->
  Forall (live_shape items origin places max_distance_km) out.
Proof.
  induction 1 as [| p r ps rs (av & Hav & ->) _ IH]; intros Hk; constructor.
  - destruct (Hk p (or_introl eq_refl)) as [Hin Hd].
    exists p, av. auto.
  - apply IH. intros q Hq. apply Hk. now right.
Qed.

Section SearchShapes.

Context {G : Type} `{Generator G}.
Variables (items : list string) (location : string) (max_distance_km : R).

(** With no item, a returned list is empty. *)
Lemma aggregate_no_items_ok origin places (s : state G) stores s' :
  items = [] ->
  aggregate items location max_distance_km (origin, places) s = (Ok stores, s') ->
  stores = [].
Proof.
  intros Hnil E. unfold aggregate in E. cbn [fst snd] in E.
  unfold bind at 1 in E.
  rewrite place_loop_no_items in E by exact Hnil.
  destruct (kept _ _ _ _ _); [| discriminate].
  change (len [] <? 3)%Z with true in E. cbv beta iota in E.
  unfold get_fallback_stores in E.
  pose proof (fallback_loop_no_items items (fst origin) (snd origin)
                max_distance_km (firstn 6 common_stores) Hnil 0 [] s) as Hfb.
  destruct (perturbed_in_range _ _ _ _ _); destruct Hfb as (s1 & Hfb).
  - rewrite (bind_raise_step _ _ _ _ _ Hfb) in E. discriminate.
  - rewrite (bind_ok_step _ _ _ _ _ Hfb) in E.
    unfold ret in E. injection E as <- _. reflexivity.
Qed.

(** A returned list is the records of the kept places, followed, below
    three of them, by the fallback records. *)
Lemma aggregate_shapes origin places (s : state G) stores s' :
  aggregate items location max_distance_km (origin, places) s = (Ok stores, s') ->
  exists live fallback,
    stores = live ++ fallback
    /\ Forall (live_shape items origin places max_distance_km) live
    /\ Forall (fallback_shape items origin max_distance_km) fallback
    /\ NoDup (map Store.name live)
    /\ NoDup (map Store.name fallback)
    /\ (forall r, In r fallback -> In (Store.name r) (firstn 6 common_stores))
    /\ (fallback = [] \/ (len live < 3)%Z).
Proof.
  unfold aggregate. cbn [fst snd]. intros E.
  apply bind_ok_inv in E. destruct E as (live & s1 & El & E).
  apply place_loop_shapes in El. destruct El as (out & -> & Hlive).
  cbn [app] in *.
  assert (Hl : Forall (live_shape items origin places max_distance_km) out
               /\ NoDup (map Store.name out)).
  { split.
    - eapply live_shapes_of_kept; [exact Hlive |].
      intros p Hp. apply kept_In in Hp. tauto.
    - rewrite (Forall2_map_names _ Place.name _ _ Hlive).
      + apply kept_names_NoDup.
      + intros p r (av & _ & ->). reflexivity. }
  destruct Hl as [Hshape Hnd].
  destruct (Z.ltb_spec (len out) 3) as [Hlt | Hge].
  - apply bind_ok_inv in E. destruct E as (fb & s2 & Ef & E).
    unfold ret in E. injection E as <- <-.
    unfold get_fallback_stores in Ef.
    pose proof (fallback_loop_ok_inv _ _ _ _ _ _ _ _ _ _ Ef)
      as (fb1 & E1 & _ & Hsub & _).
    apply fallback_loop_shapes in Ef. destruct Ef as (fb' & -> & Hfb).
    cbn [app] in *. subst fb1.
    exists out, fb'. split; [reflexivity |]. split; [exact Hshape |].
    split; [| split; [exact Hnd | split; [| split; [| now right]]]].
    + eapply Forall_impl; [| exact Hfb].
      intros r (j & n & lat & lng & av & rating & reviews & Hj & Hd & Hav & Hr).
      exists j, n, lat, lng, av, rating, reviews. auto.
    + exact (subseq_NoDup _ _ Hsub first_six_NoDup).
    + intros r Hr. apply (subseq_In _ _ _ Hsub). apply in_map. exact Hr.
  - unfold ret in E. injection E as <- <-.
    exists out, []. rewrite app_nil_r.
    split; [reflexivity |]. split; [exact Hshape |].
    split; [constructor |]. split; [exact Hnd |].
    split; [constructor |]. split; [intros r [] | now left].
Qed.

End SearchShapes.

(** Every list [search_stores] returns has this form. *)
Lemma search_stores_shapes {G} `{Generator G} (api : Services)
  (items : list string) (location : string) (max_distance_km : R)
  (s : state G) stores s' :
  search_stores api items location max_distance_km s = (Ok stores, s') ->
  exists origin places live fallback,
    fst (geocode_location api location s) = Ok origin
    /\ stores = live ++ fallback
    /\ Forall (live_shape items origin places max_distance_km) live
    /\ Forall (fallback_shape items origin max_distance_km) fallback
    /\ NoDup (map Store.name live)
    /\ NoDup (map Store.name fallback)
    /\ (forall r, In r fallback -> In (Store.name r) (firstn 6 common_stores))
    /\ (fallback = [] \/ (len live < 3)%Z)
    /\ (stores <> [] -> items <> []).
Proof.
  intros E.
  destruct (place_search_total api location max_distance_km s)
    as (origin & places & s1 & Ep & Eg & _).
  rewrite search_stores_stages, (bind_ok_step _ _ _ _ _ Ep) in E.
  pose proof (aggregate_shapes _ _ _ _ _ _ _ _ E)
    as (live & fb & Hs & Hl & Hf & Hnl & Hnf & Hin & Hlt).
  exists origin, places, live, fb. repeat (split; [assumption |]).
  intros Hne Hnil. apply Hne.
  eapply aggregate_no_items_ok; eassumption.
Qed.

(** ** What every returned record satisfies *)

Lemma live_shape_counted items origin places max_distance_km r :
  live_shape items origin places max_distance_km r -> counted_for items r.
Proof.
  intros (p & av & _ & _ & Hav & ->).
  exists av. repeat (split; [first [exact Hav | reflexivity] |]).
  eexists. split; [apply distance_nonneg | reflexivity].
Qed.

Lemma fallback_shape_counted items origin max_distance_km r :
  fallback_shape items origin max_distance_km r -> counted_for items r.
Proof.
  intros (i & n & lat & lng & av & rating & reviews & _ & _ & Hav & ->).
  exists av. repeat (split; [first [exact Hav | reflexivity] |]).
  eexists. split; [apply distance_nonneg | reflexivity].
Qed.

Lemma search_stores_counted {G} `{Generator G} (api : Services)
  (items : list string) (location : string) (max_distance_km : R)
  (s : state G) stores s' r :
  search_stores api items location max_distance_km s = (Ok stores, s') ->
  In r stores ->
  items <> [] /\ counted_for items r.
Proof.
  intros E Hr.
  destruct (search_stores_shapes _ _ _ _ _ _ _ E)
    as (origin & places & live & fb & _ & -> & Hl & Hf & _ & _ & _ & _ & Hne).
  split.
  - apply Hne. intros Hnil. rewrite Hnil in Hr. exact Hr.
  - apply in_app_or in Hr. destruct Hr as [Hr | Hr].
    + rewrite Forall_forall in Hl. eapply live_shape_counted, Hl, Hr.
    + rewrite Forall_forall in Hf. eapply fallback_shape_counted, Hf, Hr.
Qed.

Lemma len_subseq_le {A} (l1 l2 : list A) :
  subseq l1 l2 -> (0 <= len l1 <= len l2)%Z.
Proof. intros Hs. apply subseq_length in Hs. unfold len. lia. Qed.

(** X5: in every record [search_stores] returns, the products found are
    the item list with some items left out, in the same order;
    products_count is their number, between 0 and total_items, and
    missing_products lies between 0 and total_items too. *)
Theorem found_products_are_requested :
  forall (G : Type) (RNG : Generator G) (api : Services)
         (items : list string) (location : string) (max_distance_km : R)
         (s : state G) (stores : list Store.t) (s' : state G) (r : Store.t),
    search_stores api items location max_distance_km s = (Ok stores, s') ->
    In r stores ->
    subseq (Store.products_found r) items
    /\ Store.products_count r = len (Store.products_found r)
    /\ (0 <= Store.products_count r <= Store.total_items r)%Z
    /\ (0 <= Store.missing_products r <= Store.total_items r)%Z.
Proof.
  intros G RNG api items location max_distance_km s stores s' r E Hr.
  destruct (search_stores_counted _ _ _ _ _ _ _ _ E Hr)
    as (_ & av & Hav & Hf & Hc & Hm & _ & _ & Ht & _).
  pose proof (len_subseq_le _ _ Hav).
  rewrite Hf, Hc, Hm, Ht. repeat split; try assumption; lia.
Qed.

Lemma found_products_are_requested_witness :
  subseq (Store.products_found sample_live_record) pasta_latte
  /\ Store.products_count sample_live_record
     = len (Store.products_found sample_live_record)
  /\ (0 <= Store.products_count sample_live_record
      <= Store.total_items sample_live_record)%Z
  /\ (0 <= Store.missing_products sample_live_record
      <= Store.total_items sample_live_record)%Z.
Proof.
  refine (found_products_are_requested _ _ sample_api pasta_latte "Bergamo" 5
            s0 _ _ sample_live_record sample_run _).
  left. reflexivity.
Defined.

(** X6: a record [search_stores] returns is recommended exactly when its
    products found are the whole item list, which is exactly when no
    product is missing. *)
Theorem recommended_iff_all_found :
  forall (G : Type) (RNG : Generator G) (api : Services)
         (items : list string) (location : string) (max_distance_km : R)
         (s : state G) (stores : list Store.t) (s' : state G) (r : Store.t),
    search_stores api items location max_distance_km s = (Ok stores, s') ->
    In r stores ->
    (Store.recommended r = true <-> Store.products_found r = items)
    /\ (Store.recommended r = true <-> Store.missing_products r = 0%Z)
    /\ Store.recommended r = Store.has_all_products r.
Proof.
  intros G RNG api items location max_distance_km s stores s' r E Hr.
  destruct (search_stores_counted _ _ _ _ _ _ _ _ E Hr)
    as (_ & av & Hav & Hf & _ & Hm & Hh & Hrec & _).
  rewrite Hf, Hm, Hrec, Hh. split; [| split; [| reflexivity]].
  - rewrite Z.eqb_eq. split.
    + intros Hl. apply subseq_same_length; [exact Hav |].
      unfold len in Hl. lia.
    + intros ->. reflexivity.
  - rewrite Z.eqb_eq. lia.
Qed.

Lemma recommended_iff_all_found_witness :
  (Store.recommended sample_fallback_record = true
   <-> Store.products_found sample_fallback_record = pasta_latte)
  /\ (Store.recommended sample_fallback_record = true
      <-> Store.missing_products sample_fallback_record = 0%Z)
  /\ Store.recommended sample_fallback_record
     = Store.has_all_products sample_fallback_record.
Proof.
  refine (recommended_iff_all_found _ _ sample_api pasta_latte "Bergamo" 5
            s0 _ _ sample_fallback_record sample_run _).
  right. left. reflexivity.
Defined.

(** X7: in every record [search_stores] returns, match_percentage lies
    between 0 and 100 and distance_km is not negative. *)
Theorem percentage_and_distance_ranges :
  forall (G : Type) (RNG : Generator G) (api : Services)
         (items : list string) (location : string) (max_distance_km : R)
         (s : state G) (stores : list Store.t) (s' : state G) (r : Store.t),
    search_stores api items location max_distance_km s = (Ok stores, s') ->
    In r stores ->
    0 <= Store.match_percentage r <= 100
    /\ 0 <= Store.distance_km r.
Proof.
  intros G RNG api items location max_distance_km s stores s' r E Hr.
  destruct (search_stores_counted _ _ _ _ _ _ _ _ E Hr)
    as (Hne & av & Hav & _ & _ & _ & _ & _ & _ & Hp & d & Hd & Hdist).
  pose proof (len_subseq_le _ _ Hav) as [Hlo Hhi].
  assert (Hpos : (0 < len items)%Z).
  { assert (len items <> 0%Z) by (rewrite len_nil_iff; exact Hne).
    unfold len in *. lia. }
  rewrite Hp, Hdist. split.
  - apply (percentage_between (len av) (len items)); [lia | exact Hpos].
  - assert (Hb : IZR 0 <= d <= IZR (up d)).
    { pose proof (archimed d). lra. }
    apply (round1_between 0 (up d)) in Hb. lra.
Qed.

Lemma percentage_and_distance_ranges_witness :
  0 <= Store.match_percentage sample_live_record <= 100
  /\ 0 <= Store.distance_km sample_live_record.
Proof.
  refine (percentage_and_distance_ranges _ _ sample_api pasta_latte "Bergamo"
            5 s0 _ _ sample_live_record sample_run _).
  left. reflexivity.
Defined.

(** ** Fallback records *)

(** X8: every record [get_fallback_stores] returns carries the sentinel
    address, the open flag, and the id fallback_i where i is the position of
    its name among the first six chain names (not its position in the
    output). *)
Theorem fallback_ids_follow_names :
  forall (G : Type) (RNG : Generator G) (items : list string)
         (location : string) (user_lat user_lon max_distance_km : R)
         (s : state G) (fallback : list Store.t) (s' : state G),
    get_fallback_stores items location user_lat user_lon max_distance_km s
      = (Ok fallback, s') ->
    Forall
      (fun r =>
         exists i,
           (i < 6)%nat
           /\ nth_error common_stores i = Some (Store.name r)
           /\ Store.place_id r = ("fallback_" ++ Str.of_nat i)%string
           /\ Store.address r = "Info non disponibili"%string
           /\ Store.opening_now r = Some true)
      fallback.
Proof.
  intros G RNG items location user_lat user_lon max_distance_km s fb s' E.
  unfold get_fallback_stores in E.
  apply fallback_loop_shapes in E. destruct E as (out & -> & Hout).
  cbn [app]. eapply Forall_impl; [| exact Hout].
  intros r (j & n & lat & lng & av & rating & reviews & Hj & _ & _ & ->).
  exists j. cbn [Nat.add fallback_record Store.name Store.place_id
                 Store.address Store.opening_now].
  assert (Hlt : (j < 6)%nat).
  { assert (Hs : nth_error (firstn 6 common_stores) j <> None) by congruence.
    apply nth_error_Some in Hs. cbn in Hs. exact Hs. }
  repeat split; try reflexivity; try exact Hlt.
  do 6 (destruct j as [| j]; [exact Hj |]). lia.
Qed.

Lemma sample_fallback_alone :
  get_fallback_stores pasta_latte "Bergamo" 45 9 5
    (mkState (skipn 2 tape1) (searched 5))
  = (Ok [sample_fallback_record], mkState [] (searched 5)).
Proof. exact sample_fallback. Qed.

Lemma fallback_ids_follow_names_witness :
  Forall
    (fun r =>
       exists i,
         (i < 6)%nat
         /\ nth_error common_stores i = Some (Store.name r)
         /\ Store.place_id r = ("fallback_" ++ Str.of_nat i)%string
         /\ Store.address r = "Info non disponibili"%string
         /\ Store.opening_now r = Some true)
    [sample_fallback_record].
Proof.
  exact (fallback_ids_follow_names _ _ pasta_latte "Bergamo" 45 9 5 _ _ _
           sample_fallback_alone).
Defined.

(** ** Names in the returned list *)

Lemma count_name_app n l1 l2 :
  count_name n (l1 ++ l2) = (count_name n l1 + count_name n l2)%nat.
Proof. unfold count_name. rewrite filter_app, length_app. reflexivity. Qed.

Lemma count_name_NoDup n l :
  NoDup (map Store.name l) -> (count_name n l <= 1)%nat.
Proof.
  unfold count_name. induction l as [| r l IH]; cbn [map filter]; intros Hnd.
  - cbn. lia.
  - inversion Hnd as [| x xs Hnotin Hnd']; subst.
    destruct (String.eqb_spec (Store.name r) n) as [E | _]; [| auto].
    cbn [List.length].
    assert (Hz : filter (fun r0 => String.eqb (Store.name r0) n) l = []).
    { destruct (filter _ l) as [| q qs] eqn:Hf; [reflexivity |].
      exfalso. apply Hnotin.
      assert (Hq : In q (filter (fun r0 => String.eqb (Store.name r0) n) l))
        by (rewrite Hf; now left).
      apply filter_In in Hq. destruct Hq as [Hq Hn].
      apply String.eqb_eq in Hn. rewrite E, <- Hn. apply in_map. exact Hq. }
    rewrite Hz. cbn. lia.
Qed.

Lemma count_name_pos n l :
  (0 < count_name n l)%nat -> exists r, In r l /\ Store.name r = n.
Proof.
  unfold count_name. intros Hp. apply filter_length_pos in Hp.
  destruct Hp as (r & Hr & Hn). apply String.eqb_eq in Hn. eauto.
Qed.

(** X9: in a list [search_stores] returns no name occurs more than twice,
    and a name that occurs twice is one of the first six chain names (once
    live, once fallback). *)
Theorem names_at_most_twice :
  forall (G : Type) (RNG : Generator G) (api : Services)
         (items : list string) (location : string) (max_distance_km : R)
         (s : state G) (stores : list Store.t) (s' : state G) (n : string),
    search_stores api items location max_distance_km s = (Ok stores, s') ->
    (count_name n stores <= 2)%nat
    /\ (count_name n stores = 2%nat -> In n (firstn 6 common_stores)).
Proof.
  intros G RNG api items location max_distance_km s stores s' n E.
  destruct (search_stores_shapes _ _ _ _ _ _ _ E)
    as (origin & places & live & fb & _ & -> & _ & _ & Hnl & Hnf & Hin & _).
  rewrite count_name_app.
  pose proof (count_name_NoDup n _ Hnl).
  pose proof (count_name_NoDup n _ Hnf).
  split; [lia |]. intros H2.
  destruct (count_name_pos n fb ltac:(lia)) as (r & Hr & <-).
  apply Hin. exact Hr.
Qed.

Lemma names_at_most_twice_witness :
  (count_name "Esselunga" [sample_live_record; sample_fallback_record] <= 2)%nat
  /\ (count_name "Esselunga" [sample_live_record; sample_fallback_record]
      = 2%nat ->
      In "Esselunga"%string (firstn 6 common_stores)).
Proof.
  exact (names_at_most_twice _ _ sample_api pasta_latte "Bergamo" 5 s0 _ _
           "Esselunga" sample_run).
Defined.

(** ** Addresses *)



(** White space outside ASCII is white space: an address of such characters
    only is replaced. *)
Example address_of_wide_blank :
  Str.blank no_break_space = true
  /\ Str.blank wide_blank = true
  /\ address_of (Place.mk "Conad" 45 9 (Some no_break_space) None None None
                   None)
     = "Info non disponibili"%string
  /\ address_of (Place.mk "Conad" 45 9 (Some wide_blank) None None None None)
     = "Info non disponibili"%string.
Proof. repeat split. Qed.



(** ** Requests *)

Section Requests.

Context {G : Type} `{Generator G}.
Variable api : Services.

Lemma geocode_location_located location (s : state G) :
  exists notices,
    geocode_location api location s
    = (Ok (located api location),
       mkState (gen s) (trace s ++ GetGeocode location :: notices))
    /\ notices_only notices.
Proof.
  unfold geocode_location, located, bind, emit, ret, notices_only. cbn.
  destruct (geocode_json api location) as [e | status results]; cbn.
  - eexists [_]. rewrite <- app_assoc. split; reflexivity.
  - destruct results as [| c rest];
      destruct (String.eqb status "OK"); cbn;
      try (eexists [_]; rewrite <- app_assoc; split; reflexivity).
    exists []. split; reflexivity.
Qed.

Lemma search_places_nearby_results lat lng radius keyword (s : state G) :
  exists notices,
    search_places_nearby api lat lng radius keyword s
    = (Ok (ok_results (nearbysearch_json api lat lng radius keyword)),
       mkState (gen s)
         (trace s ++ GetNearbySearch lat lng radius keyword :: notices))
    /\ notices_only notices.
Proof.
  unfold search_places_nearby, ok_results, bind, emit, ret, notices_only. cbn.
  destruct (nearbysearch_json api lat lng radius keyword)
    as [e | status results]; cbn.
  - eexists [_]. rewrite <- app_assoc. split; reflexivity.
  - destruct (String.eqb status "OK"); cbn.
    + exists []. split; reflexivity.
    + eexists [_]. rewrite <- app_assoc. split; reflexivity.
Qed.

Lemma filter_requests_text queries :
  filter is_request (map GetTextSearch queries) = map GetTextSearch queries.
Proof. induction queries; cbn; congruence. Qed.

(** The first stage: its result, its requests, and the generator left as
    it was. *)
Lemma place_search_requests location max_distance_km (s : state G) :
  let origin := located api location in
  let near :=
    ok_results
      (nearbysearch_json api (fst origin) (snd origin)
         (max_distance_km * 1000) "supermarket") in
  exists places s1,
    place_search api location max_distance_km s = (Ok (origin, places), s1)
    /\ gen s1 = gen s
    /\ filter is_request (trace s1)
       = filter is_request (trace s)
         ++ GetGeocode location
            :: GetNearbySearch (fst origin) (snd origin)
                 (max_distance_km * 1000) "supermarket"
            :: (if (len near <? 3)%Z
                then map GetTextSearch (text_queries location)
                else []).
Proof.
  intros origin near. unfold place_search.
  destruct (geocode_location_located location s) as (n1 & Eg & Hn1).
  rewrite (bind_ok_step _ _ _ _ _ Eg). fold origin.
  destruct (search_places_nearby_results (fst origin) (snd origin)
              (max_distance_km * 1000) "supermarket"
              (mkState (gen s) (trace s ++ GetGeocode location :: n1)))
    as (n2 & En & Hn2).
  rewrite (bind_ok_step _ _ _ _ _ En). fold near. cbn [gen trace].
  unfold notices_only in *.
  destruct (len near <? 3)%Z; cbv beta iota.
  - erewrite bind_ok_step by apply text_loop_spec.
    eexists _, _. split; [reflexivity |]. split; [reflexivity |].
    cbn [trace gen].
    rewrite !filter_app. cbn [filter is_request].
    rewrite Hn1, Hn2. unfold text_queries. rewrite map_map.
    rewrite <- (map_map (fun n => (n ++ " " ++ location)%string) GetTextSearch).
    rewrite filter_requests_text.
    rewrite <- !app_assoc. reflexivity.
  - erewrite bind_ok_step by reflexivity.
    eexists _, _. split; [reflexivity |]. split; [reflexivity |].
    cbn [trace gen].
    rewrite !filter_app. cbn [filter is_request].
    rewrite Hn1, Hn2. rewrite <- !app_assoc. reflexivity.
Qed.

Variables (items : list string) (user_lat user_lon max_distance_km : R).

(** The loops send nothing and show nothing, whether they return or
    raise. *)
Lemma place_loop_trace (places : list Place.t) :
  forall stores_data seen (s : state G),
    trace (snd (place_loop items user_lat user_lon max_distance_km places
                  stores_data seen s)) = trace s.
Proof.
  induction places as [| p rest IH]; intros acc seen s; [reflexivity |].
  cbn [place_loop].
  destruct (Str.mem (Place.name p) seen); [apply IH |].
  destruct (Float.leb _ max_distance_km); [| apply IH].
  rewrite (bind_ok_step _ _ _ _ _ (determine_available_products_draws _ _ s)).
  unfold truediv. destruct (len items =? 0)%Z.
  - erewrite bind_raise_step by reflexivity. reflexivity.
  - erewrite bind_ok_step by reflexivity. rewrite IH. reflexivity.
Qed.

Lemma fallback_loop_trace (names : list string) :
  forall i fallback_stores (s : state G),
    trace (snd (fallback_loop items user_lat user_lon max_distance_km names i
                  fallback_stores s)) = trace s.
Proof.
  induction names as [| n rest IH]; intros i acc s; [reflexivity |].
  cbn [fallback_loop].
  rewrite (bind_ok_step _ _ _ _ _ (draw_step _ s)).
  erewrite bind_ok_step by apply draw_step.
  destruct (Float.leb _ max_distance_km); [| rewrite IH; reflexivity].
  erewrite bind_ok_step by apply determine_available_products_draws.
  erewrite bind_ok_step by apply draw_step.
  erewrite bind_ok_step by apply draw_step.
  unfold truediv. destruct (len items =? 0)%Z.
  - erewrite bind_raise_step by reflexivity. reflexivity.
  - erewrite bind_ok_step by reflexivity. rewrite IH. reflexivity.
Qed.

End Requests.

Lemma aggregate_trace {G} `{Generator G} items location max_distance_km found
  (s : state G) :
  trace (snd (aggregate items location max_distance_km found s)) = trace s.
Proof.
  unfold aggregate, bind at 1.
  pose proof (place_loop_trace items (fst (fst found)) (snd (fst found))
                max_distance_km (snd found) [] [] s) as Hl.
  destruct (place_loop _ _ _ _ _ _ _ s) as [[live | e] s1]; cbn [snd] in Hl;
    [| exact Hl].
  destruct (len live <? 3)%Z; [| exact Hl].
  unfold get_fallback_stores, bind.
  pose proof (fallback_loop_trace items (fst (fst found)) (snd (fst found))
                max_distance_km (firstn 6 common_stores) 0 [] s1) as Hf.
  destruct (fallback_loop _ _ _ _ _ _ _ s1) as [[fb | e] s2];
    unfold ret; cbn [snd] in *; congruence.
Qed.

(** X11: whatever the replies, and whether it returns or raises,
    [search_stores] sends one geocoding request, then one nearby-search
    request around the coordinate it settled on, then the three text
    queries when the nearby search gave fewer than three places, and no
    other request. *)
Theorem search_stores_requests :
  forall (G : Type) (RNG : Generator G) (api : Services)
         (items : list string) (location : string) (max_distance_km : R)
         (s : state G),
    let origin := located api location in
    let near :=
      ok_results
        (nearbysearch_json api (fst origin) (snd origin)
           (max_distance_km * 1000) "supermarket") in
    filter is_request
      (trace (snd (search_stores api items location max_distance_km s)))
    = filter is_request (trace s)
      ++ GetGeocode location
         :: GetNearbySearch (fst origin) (snd origin)
              (max_distance_km * 1000) "supermarket"
         :: (if (len near <? 3)%Z
             then map GetTextSearch (text_queries location)
             else []).
Proof.
  intros G RNG api items location max_distance_km s origin near.
  destruct (place_search_requests api location max_distance_km s)
    as (places & s1 & Ep & _ & Ht).
  rewrite search_stores_stages, (bind_ok_step _ _ _ _ _ Ep).
  rewrite aggregate_trace. exact Ht.
Qed.

(** ** When every service fails *)

Lemma ok_results_failed (r : reply Place.t) : search_failed r -> ok_results r = [].
Proof.
  unfold search_failed, ok_results. destruct r as [e | status results];
    [reflexivity |].
  intros Hne. destruct (String.eqb_spec status "OK"); [contradiction | reflexivity].
Qed.

Lemma located_failed api location :
  geocoding_failed (geocode_json api location) ->
  located api location = fallback_coordinate.
Proof.
  unfold geocoding_failed, located.
  destruct (geocode_json api location) as [e | status results];
    [reflexivity |].
  destruct results as [| c rest]; [reflexivity |].
  intros [Hne | Hnil]; [| discriminate].
  destruct (String.eqb_spec status "OK"); [contradiction | reflexivity].
Qed.

Lemma concat_all_nil {A B} (f : A -> list B) (l : list A) :
  (forall x, f x = []) -> List.concat (map f l) = [].
Proof.
  intros Hf. induction l as [| x l IH]; cbn; [reflexivity |].
  rewrite Hf, IH. reflexivity.
Qed.

(** X12: when the geocoding call, the nearby search around the fixed
    coordinate and every text search fail, [search_stores] does after its
    requests exactly what [get_fallback_stores] does around
    (45.698, 9.677), with the generator untouched until then: it returns
    the fallback records alone, or raises as the generator does. *)
Theorem offline_search_is_fallback :
  forall (G : Type) (RNG : Generator G) (api : Services)
         (items : list string) (location : string) (max_distance_km : R)
         (s : state G),
    geocoding_failed (geocode_json api location) ->
    search_failed
      (nearbysearch_json api 45.698 9.677 (max_distance_km * 1000)
         "supermarket") ->
    (forall query, search_failed (textsearch_json api query)) ->
    exists s1,
      gen s1 = gen s
      /\ search_stores api items location max_distance_km s
         = get_fallback_stores items location 45.698 9.677 max_distance_km s1
      /\ fst (place_search api location max_distance_km s)
         = Ok ((45.698, 9.677), []).
Proof.
  intros G RNG api items location max_distance_km s Hg Hn Ht.
  assert (Ep : exists s1,
             gen s1 = gen s
             /\ place_search api location max_distance_km s
                = (Ok ((45.698, 9.677), []), s1)).
  { unfold place_search.
    destruct (geocode_location_located api location s) as (n1 & Eg & _).
    rewrite (located_failed _ _ Hg) in Eg.
    rewrite (bind_ok_step _ _ _ _ _ Eg).
    change (fst fallback_coordinate) with 45.698.
    change (snd fallback_coordinate) with 9.677.
    destruct (search_places_nearby_results api 45.698 9.677
                (max_distance_km * 1000) "supermarket"
                (mkState (gen s) (trace s ++ GetGeocode location :: n1)))
      as (n2 & En & _).
    rewrite (ok_results_failed _ Hn) in En.
    rewrite (bind_ok_step _ _ _ _ _ En).
    change (len [] <? 3)%Z with true. cbv beta iota.
    erewrite bind_ok_step by apply text_loop_spec.
    rewrite concat_all_nil by (intros n; apply ok_results_failed, Ht).
    eexists. split; [| reflexivity]. reflexivity. }
  destruct Ep as (s1 & Hgen & Ep).
  exists s1. split; [exact Hgen |]. split; [| rewrite Ep; reflexivity].
  rewrite search_stores_stages, (bind_ok_step _ _ _ _ _ Ep).
  unfold aggregate. cbn [fst snd place_loop].
  erewrite bind_ok_step by reflexivity.
  change (len [] <? 3)%Z with true. cbv beta iota.
  unfold bind, ret.
  destruct (get_fallback_stores items location 45.698 9.677 max_distance_km s1)
    as [[fb | e] s2]; reflexivity.
Qed.

Lemma offline_search_is_fallback_witness :
  exists s1,
    gen s1 = gen s0
    /\ search_stores offline pasta_latte "Bergamo" 5 s0
       = get_fallback_stores pasta_latte "Bergamo" 45.698 9.677 5 s1
    /\ fst (place_search offline "Bergamo" 5 s0) = Ok ((45.698, 9.677), []).
Proof.
  apply (offline_search_is_fallback _ _ offline pasta_latte "Bergamo" 5 s0).
  - exact I.
  - exact I.
  - intros query. exact I.
Defined.

(** ** The summary *)

Lemma len_cons {A} (x : A) (l : list A) : len (x :: l) = (len l + 1)%Z.
Proof. unfold len. cbn [List.length]. lia. Qed.

Lemma len_nonneg {A} (l : list A) : (0 <= len l)%Z.
Proof. unfold len. lia. Qed.

Lemma len_filter_le {A} (f : A -> bool) (l : list A) :
  (0 <= len (filter f l) <= len l)%Z.
Proof. pose proof (filter_length_le f l). unfold len. lia. Qed.

Lemma column_max_spec (rest : list Z) :
  forall x,
    (x <= column_max x rest)%Z
    /\ Forall (fun y => (y <= column_max x rest)%Z) rest
    /\ In (column_max x rest) (x :: rest).
Proof.
  unfold column_max.
  induction rest as [| y rest IH]; intros x; cbn [fold_left].
  - repeat split; [lia | constructor | now left].
  - destruct (IH (Z.max x y)) as (Hm & Hall & Hin).
    split; [lia |]. split.
    + constructor; [lia | exact Hall].
    + destruct Hin as [Hin | Hin]; [| right; right; exact Hin].
      destruct (Z.max_spec x y) as [[_ E] | [_ E]].
      * right; left. congruence.
      * left. congruence.
Qed.

Lemma column_min_spec (rest : list Z) :
  forall x,
    (column_min x rest <= x)%Z
    /\ Forall (fun y => (column_min x rest <= y)%Z) rest
    /\ In (column_min x rest) (x :: rest).
Proof.
  unfold column_min.
  induction rest as [| y rest IH]; intros x; cbn [fold_left].
  - repeat split; [lia | constructor | now left].
  - destruct (IH (Z.min x y)) as (Hm & Hall & Hin).
    split; [lia |]. split.
    + constructor; [lia | exact Hall].
    + destruct Hin as [Hin | Hin]; [| right; right; exact Hin].
      destruct (Z.min_spec x y) as [[_ E] | [_ E]].
      * left. congruence.
      * right; left. congruence.
Qed.

Lemma sum_between (lo hi : R) (column : list R) :
  Forall (fun v => lo <= v <= hi) column ->
  IZR (len column) * lo <= fold_right Rplus 0 column <= IZR (len column) * hi.
Proof.
  induction 1 as [| v vs Hv _ IH].
  - cbn. change (len []) with 0%Z. lra.
  - rewrite len_cons, plus_IZR. cbn [fold_right]. lra.
Qed.

Lemma mean_between (lo hi : R) (column : list R) :
  column <> [] ->
  Forall (fun v => lo <= v <= hi) column ->
  lo <= mean column <= hi.
Proof.
  intros Hne Hall. unfold mean.
  pose proof (sum_between lo hi column Hall) as [Hlo Hhi].
  assert (Hn : 0 < IZR (len column)).
  { apply IZR_lt. pose proof (len_nonneg column).
    assert (len column <> 0%Z) by (rewrite len_nil_iff; exact Hne). lia. }
  split.
  - apply Rmult_le_reg_r with (IZR (len column)); [exact Hn |].
    unfold Rdiv. rewrite Rmult_assoc, Rinv_l by lra. lra.
  - apply Rmult_le_reg_r with (IZR (len column)); [exact Hn |].
    unfold Rdiv. rewrite Rmult_assoc, Rinv_l by lra. lra.
Qed.

Lemma Forall_map_iff {A B} (f : A -> B) (P : B -> Prop) (l : list A) :
  Forall P (map f l) <-> Forall (fun x => P (f x)) l.
Proof.
  induction l as [| x l IH]; cbn [map]; split; intros Hf;
    try constructor; inversion Hf; subst; try tauto.
Qed.

Lemma summary_facts :
  forall (stores_data : list Store.t) (total_items : Z),
    stores_data <> [] ->
    exists summary,
      analyze_results stores_data total_items = Some (summary, stores_data)
      /\ Summary.total_stores summary = len stores_data
      /\ Summary.total_products summary = total_items
      /\ (0 <= Summary.stores_with_all_products summary
          <= Summary.total_stores summary)%Z
      /\ Forall
           (fun r =>
              (Summary.min_products_in_store summary
               <= Store.products_count r
               <= Summary.max_products_in_store summary)%Z)
           stores_data
      /\ (exists r,
             In r stores_data
             /\ Store.products_count r = Summary.max_products_in_store summary)
      /\ (exists r,
             In r stores_data
             /\ Store.products_count r = Summary.min_products_in_store summary)
      /\ IZR (Summary.min_products_in_store summary)
         <= Summary.avg_products_per_store summary
         <= IZR (Summary.max_products_in_store summary)
      /\ Summary.stores_with_all_products summary
         = len (filter Store.has_all_products stores_data)
      /\ Summary.avg_distance summary
         = Float.round1 (mean (map Store.distance_km stores_data)).
Proof.
  intros stores_data total_items Hne.
  destruct stores_data as [| first rest]; [contradiction |].
  eexists. split; [reflexivity |].
  cbn [Summary.total_stores Summary.total_products
       Summary.stores_with_all_products Summary.min_products_in_store
       Summary.max_products_in_store Summary.avg_products_per_store].
  split; [reflexivity |]. split; [reflexivity |].
  split; [apply len_filter_le |].
  destruct (column_max_spec (map Store.products_count rest)
              (Store.products_count first)) as (Hmx & Hmall & Hmin).
  destruct (column_min_spec (map Store.products_count rest)
              (Store.products_count first)) as (Hnx & Hnall & Hnin).
  set (mx := column_max _ _) in *. set (mn := column_min _ _) in *.
  rewrite Forall_map_iff in Hmall, Hnall.
  assert (Hall : Forall (fun r => (mn <= Store.products_count r <= mx)%Z)
                   (first :: rest)).
  { constructor; [lia |].
    rewrite Forall_forall in *. intros r Hr.
    specialize (Hmall r Hr). specialize (Hnall r Hr). lia. }
  split; [exact Hall |].
  change (Store.products_count first :: map Store.products_count rest)
    with (map Store.products_count (first :: rest)) in Hmin, Hnin.
  apply in_map_iff in Hmin, Hnin.
  split; [destruct Hmin as (r & E & Hr); exists r; auto |].
  split; [destruct Hnin as (r & E & Hr); exists r; auto |].
  split; [| split; reflexivity].
  apply round1_between. apply mean_between; [discriminate |].
  apply Forall_map_iff. eapply Forall_impl; [| exact Hall].
  cbv beta. intros r [H1 H2]. apply IZR_le in H1, H2. lra.
Qed.


(** X13: for a non-empty list [analyze_results] returns a summary with the
    frame; total_stores is the number of records, stores_with_all_products
    is at most that number, min_products_in_store and max_products_in_store
    are products counts of records of the list that bound all the others,
    and avg_products_per_store lies between them. *)
Theorem summary_bounds :
  forall (stores_data : list Store.t) (total_items : Z),
    stores_data <> [] ->
    exists summary,
      analyze_results stores_data total_items = Some (summary, stores_data)
      /\ Summary.total_stores summary = len stores_data
      /\ Summary.total_products summary = total_items
      /\ (0 <= Summary.stores_with_all_products summary
          <= Summary.total_stores summary)%Z
      /\ Forall
           (fun r =>
              (Summary.min_products_in_store summary
               <= Store.products_count r
               <= Summary.max_products_in_store summary)%Z)
           stores_data
      /\ (exists r,
             In r stores_data
             /\ Store.products_count r = Summary.max_products_in_store summary)
      /\ (exists r,
             In r stores_data
             /\ Store.products_count r = Summary.min_products_in_store summary)
      /\ IZR (Summary.min_products_in_store summary)
         <= Summary.avg_products_per_store summary
         <= IZR (Summary.max_products_in_store summary).
Proof.
  intros stores_data total_items Hne.
  destruct (summary_facts stores_data total_items Hne)
    as (summary & Ea & Hn & Ht & Hw & Hall & Hmx & Hmn & Havg & _).
  exists summary. repeat (split; [assumption |]). exact Havg.
Qed.

Lemma summary_bounds_witness :
  exists summary,
    analyze_results [sample_live_record; sample_fallback_record] 2
    = Some (summary, [sample_live_record; sample_fallback_record])
    /\ Summary.total_stores summary
       = len [sample_live_record; sample_fallback_record]
    /\ Summary.total_products summary = 2%Z
    /\ (0 <= Summary.stores_with_all_products summary
        <= Summary.total_stores summary)%Z
    /\ Forall
         (fun r =>
            (Summary.min_products_in_store summary
             <= Store.products_count r
             <= Summary.max_products_in_store summary)%Z)
         [sample_live_record; sample_fallback_record]
    /\ (exists r,
           In r [sample_live_record; sample_fallback_record]
           /\ Store.products_count r = Summary.max_products_in_store summary)
    /\ (exists r,
           In r [sample_live_record; sample_fallback_record]
           /\ Store.products_count r = Summary.min_products_in_store summary)
    /\ IZR (Summary.min_products_in_store summary)
       <= Summary.avg_products_per_store summary
       <= IZR (Summary.max_products_in_store summary).
Proof.
  apply summary_bounds. discriminate.
Defined.

Lemma mean_nonneg (column : list R) :
  column <> [] -> Forall (fun v => 0 <= v) column -> 0 <= mean column.
Proof.
  intros Hne Hall. unfold mean.
  assert (Hs : 0 <= fold_right Rplus 0 column).
  { clear Hne. induction Hall; cbn [fold_right]; lra. }
  assert (Hn : 0 < IZR (len column)).
  { apply IZR_lt. pose proof (len_nonneg column).
    assert (len column <> 0%Z) by (rewrite len_nil_iff; exact Hne). lia. }
  apply Rmult_le_pos; [exact Hs |]. left. apply Rinv_0_lt_compat. exact Hn.
Qed.

Lemma round1_nonneg (x : R) : 0 <= x -> 0 <= Float.round1 x.
Proof.
  intros Hx.
  assert (Hb : IZR 0 <= x <= IZR (up x)) by (pose proof (archimed x); lra).
  apply (round1_between 0 (up x)) in Hb. lra.
Qed.

(** X14: for a non-empty list returned by [search_stores] and the call
    [analyze_results(stores_data, len(items))] that [main] makes, the
    summary has min_products_in_store at least 0, max_products_in_store at
    most total_products, stores_with_all_products equal to the number of
    recommended stores, the average of the products between 0 and
    total_products, and an average distance that is not negative. *)
Theorem summary_of_search :
  forall (G : Type) (RNG : Generator G) (api : Services)
         (items : list string) (location : string) (max_distance_km : R)
         (s : state G) (stores : list Store.t) (s' : state G),
    search_stores api items location max_distance_km s = (Ok stores, s') ->
    stores <> [] ->
    exists summary,
      analyze_results stores (len items) = Some (summary, stores)
      /\ (0 <= Summary.min_products_in_store summary)%Z
      /\ (Summary.max_products_in_store summary
          <= Summary.total_products summary)%Z
      /\ Summary.stores_with_all_products summary
         = len (recommended_stores stores)
      /\ 0 <= Summary.avg_products_per_store summary
         <= IZR (Summary.total_products summary)
      /\ 0 <= Summary.avg_distance summary.
Proof.
  intros G RNG api items location max_distance_km s stores s' E Hne.
  assert (Hall : forall r, In r stores -> counted_for items r).
  { intros r Hr. eapply search_stores_counted; eassumption. }
  destruct (summary_facts stores (len items) Hne)
    as (summary & Ea & _ & Htp & _ & _ & Hmx & Hmn & Havg & Hwa & Hd).
  exists summary. split; [exact Ea |].
  destruct Hmx as (rx & Hrx & Ex). destruct Hmn as (rn & Hrn & En).
  destruct (Hall rx Hrx) as (ax & Hax & _ & Hcx & _).
  destruct (Hall rn Hrn) as (an & Han & _ & Hcn & _).
  rewrite Hcx in Ex. rewrite Hcn in En.
  pose proof (len_subseq_le _ _ Hax). pose proof (len_subseq_le _ _ Han).
  rewrite Htp.
  assert (Hmin0 : (0 <= Summary.min_products_in_store summary)%Z) by lia.
  assert (Hmax1 : (Summary.max_products_in_store summary <= len items)%Z) by lia.
  split; [exact Hmin0 |]. split; [exact Hmax1 |].
  split.
  { rewrite Hwa. unfold recommended_stores. f_equal.
    apply filter_ext_in. intros r Hr.
    destruct (Hall r Hr) as (av & _ & _ & _ & _ & Hh & Hrec & _).
    congruence. }
  split.
  { apply IZR_le in Hmin0, Hmax1. lra. }
  rewrite Hd. apply round1_nonneg. apply mean_nonneg.
  { destruct stores; [contradiction | discriminate]. }
  apply Forall_map_iff. apply Forall_forall. intros r Hr.
  destruct (Hall r Hr)
    as (av & _ & _ & _ & _ & _ & _ & _ & _ & d & Hd0 & ->).
  apply round1_nonneg. exact Hd0.
Qed.

Lemma summary_of_search_witness :
  exists summary,
    analyze_results [sample_live_record; sample_fallback_record]
      (len pasta_latte)
    = Some (summary, [sample_live_record; sample_fallback_record])
    /\ (0 <= Summary.min_products_in_store summary)%Z
    /\ (Summary.max_products_in_store summary
        <= Summary.total_products summary)%Z
    /\ Summary.stores_with_all_products summary
       = len (recommended_stores [sample_live_record; sample_fallback_record])
    /\ 0 <= Summary.avg_products_per_store summary
       <= IZR (Summary.total_products summary)
    /\ 0 <= Summary.avg_distance summary.
Proof.
  refine (summary_of_search _ _ sample_api pasta_latte "Bergamo" 5 s0 _ _
            sample_run _).
  discriminate.
Defined.

(** ** The categories of the pie chart *)

Lemma string_length_append (a b : string) :
  String.length (a ++ b) = (String.length a + String.length b)%nat.
Proof. induction a as [| c a IH]; cbn; [reflexivity | rewrite IH; reflexivity]. Qed.

Lemma string_append_inv_tail (c : string) :
  forall a b : string, (a ++ c)%string = (b ++ c)%string -> a = b.
Proof.
  induction a as [| x a IH]; intros [| y b] E; cbn in E.
  - reflexivity.
  - apply (f_equal String.length) in E. cbn in E.
    rewrite string_length_append in E. lia.
  - apply (f_equal String.length) in E. cbn in E.
    rewrite string_length_append in E. lia.
  - injection E as -> E. f_equal. apply IH. exact E.
Qed.

Lemma string_append_inv_head (p a b : string) :
  (p ++ a)%string = (p ++ b)%string -> a = b.
Proof.
  induction p as [| c p IH]; cbn; intros E; [exact E |].
  injection E as E. apply IH. exact E.
Qed.

Lemma to_int_proper (n : Z) :
  Z.to_int n <> Decimal.Pos Decimal.Nil /\ Z.to_int n <> Decimal.Neg Decimal.Nil.
Proof.
  destruct n as [| p | p]; cbn; split; intros E; try discriminate;
    injection E as E; exact (Unsigned.to_uint_nonnil p E).
Qed.

Lemma str_of_int_inj (m n : Z) : str_of_int m = str_of_int n -> m = n.
Proof.
  unfold str_of_int. intros E.
  apply (f_equal NilZero.int_of_string) in E.
  destruct (to_int_proper m) as [Hm1 Hm2].
  destruct (to_int_proper n) as [Hn1 Hn2].
  rewrite !NilZero.isi in E by assumption.
  injection E as E. apply to_int_inj. exact E.
Qed.

Lemma missing_category_other (m : Z) :
  m <> 0%Z -> m <> 1%Z ->
  missing_category m = ("Mancano " ++ str_of_int m ++ " prodotti")%string.
Proof.
  intros H0 H1. unfold missing_category.
  destruct (Z.eqb_spec m 0); [contradiction |].
  destruct (Z.eqb_spec m 1); [contradiction |].
  destruct (Z.eqb_spec m 2) as [-> | _]; reflexivity.
Qed.

Lemma missing_category_full (m : Z) :
  missing_category m = "Tutti i prodotti"%string <-> m = 0%Z.
Proof.
  split; [| intros ->; reflexivity].
  unfold missing_category.
  destruct (Z.eqb_spec m 0); [auto |].
  destruct (Z.eqb_spec m 1); [discriminate |].
  destruct (Z.eqb_spec m 2); discriminate.
Qed.

(** X15: two missing counts get the same pie label only when they are
    equal; the label is "Tutti i prodotti", and the scatter colour the green
    "#10B981", exactly for the missing count 0. *)
Theorem pie_labels_separate_counts :
  forall m1 m2 : Z,
    (missing_category m1 = missing_category m2 -> m1 = m2)
    /\ (missing_category m1 = "Tutti i prodotti"%string <-> m1 = 0%Z)
    /\ (scatter_color m1 = "#10B981"%string <-> m1 = 0%Z).
Proof.
  intros m1 m2. split; [| split; [apply missing_category_full |]].
  - intros E.
    destruct (Z.eq_dec m1 0) as [-> | H10].
    { symmetry in E. apply missing_category_full in E. congruence. }
    destruct (Z.eq_dec m2 0) as [-> | H20].
    { apply missing_category_full in E. contradiction. }
    destruct (Z.eq_dec m1 1) as [-> | H11];
      destruct (Z.eq_dec m2 1) as [-> | H21]; try reflexivity.
    + rewrite (missing_category_other m2) in E by assumption. discriminate.
    + rewrite (missing_category_other m1) in E by assumption. discriminate.
    + rewrite !missing_category_other in E by assumption.
      apply string_append_inv_head, string_append_inv_tail in E. apply str_of_int_inj. exact E.
  - unfold scatter_color. split; [| intros ->; reflexivity].
    destruct (Z.eqb_spec m1 0); [auto |].
    destruct (Z.eqb_spec m1 1); [discriminate |].
    destruct (Z.eqb_spec m1 2); discriminate.
Qed.

(** X16: for a list returned by [search_stores], the stores counted under
    the pie label "Tutti i prodotti" are as many as the recommended
    stores. *)
Theorem full_label_counts_recommended :
  forall (G : Type) (RNG : Generator G) (api : Services)
         (items : list string) (location : string) (max_distance_km : R)
         (s : state G) (stores : list Store.t) (s' : state G),
    search_stores api items location max_distance_km s = (Ok stores, s') ->
    value_count "Tutti i prodotti" (missing_categories stores)
    = len (recommended_stores stores).
Proof.
  intros G RNG api items location max_distance_km s stores s' E.
  assert (Hall : forall r,
             In r stores ->
             String.eqb "Tutti i prodotti"
               (missing_category (Store.missing_products r))
             = Store.recommended r).
  { intros r Hr.
    destruct (search_stores_counted _ _ _ _ _ _ _ _ E Hr)
      as (_ & av & Hav & _ & _ & Hm & _ & Hrec & _).
    pose proof (len_subseq_le _ _ Hav).
    rewrite Hrec.
    destruct (Z.eqb_spec (len av) (len items)) as [El | Hl].
    - apply String.eqb_eq. symmetry. apply missing_category_full. lia.
    - apply String.eqb_neq. intros Hc. symmetry in Hc.
      apply missing_category_full in Hc. lia. }
  unfold value_count, missing_categories, recommended_stores, len.
  f_equal. clear E. induction stores as [| r rest IH]; [reflexivity |].
  cbn [map filter].
  rewrite (Hall r (or_introl eq_refl)).
  destruct (Store.recommended r); cbn [List.length];
    rewrite IH by (intros q Hq; apply Hall; now right); reflexivity.
Qed.

Lemma full_label_counts_recommended_witness :
  value_count "Tutti i prodotti"
    (missing_categories [sample_live_record; sample_fallback_record])
  = len (recommended_stores [sample_live_record; sample_fallback_record]).
Proof.
  exact (full_label_counts_recommended _ _ sample_api pasta_latte "Bergamo" 5
           s0 _ _ sample_run).
Defined.

(** ** The result cards *)

Lemma insert_by_count_perm x l : Permutation (x :: l) (insert_by_count x l).
Proof.
  induction l as [| y l IH]; cbn [insert_by_count]; [reflexivity |].
  destruct (Store.products_count y <=? Store.products_count x)%Z;
    [reflexivity |].
  rewrite perm_swap. apply perm_skip. exact IH.
Qed.

Lemma sorted_by_count_perm l : Permutation l (sorted_by_count l).
Proof.
  unfold sorted_by_count. induction l as [| x l IH]; cbn [fold_right];
    [reflexivity |].
  rewrite <- insert_by_count_perm. apply perm_skip. exact IH.
Qed.

Lemma insert_by_count_sorted x l :
  StronglySorted count_ge l -> StronglySorted count_ge (insert_by_count x l).
Proof.
  induction 1 as [| y l Hs IH Hy]; cbn [insert_by_count].
  - repeat constructor.
  - destruct (Z.leb_spec (Store.products_count y) (Store.products_count x))
      as [Hle | Hgt].
    + constructor; [constructor; assumption |].
      constructor; [exact Hle |].
      rewrite Forall_forall in *. intros z Hz. specialize (Hy z Hz).
      unfold count_ge in *. lia.
    + constructor; [exact IH |].
      rewrite <- insert_by_count_perm.
      constructor; [unfold count_ge; lia | exact Hy].
Qed.

Lemma sorted_by_count_sorted l : StronglySorted count_ge (sorted_by_count l).
Proof.
  unfold sorted_by_count. induction l as [| x l IH]; cbn [fold_right].
  - constructor.
  - apply insert_by_count_sorted. exact IH.
Qed.

Lemma insert_by_count_stable k x l :
  filter (fun r => (Store.products_count r =? k)%Z) (insert_by_count x l)
  = filter (fun r => (Store.products_count r =? k)%Z) (x :: l).
Proof.
  induction l as [| y l IH]; cbn [insert_by_count]; [reflexivity |].
  destruct (Z.leb_spec (Store.products_count y) (Store.products_count x))
    as [Hle | Hgt]; [reflexivity |].
  cbn [filter] in *. rewrite IH.
  destruct (Z.eqb_spec (Store.products_count x) k) as [Ex | _];
    [| reflexivity].
  destruct (Z.eqb_spec (Store.products_count y) k) as [Ey | _];
    [lia | reflexivity].
Qed.

Lemma sorted_by_count_stable k l :
  filter (fun r => (Store.products_count r =? k)%Z) (sorted_by_count l)
  = filter (fun r => (Store.products_count r =? k)%Z) l.
Proof.
  unfold sorted_by_count. induction l as [| x l IH]; cbn [fold_right];
    [reflexivity |].
  rewrite insert_by_count_stable. cbn [filter]. rewrite IH. reflexivity.
Qed.

Lemma filter_partition_perm {A} (f : A -> bool) (l : list A) :
  Permutation l (filter f l ++ filter (fun x => negb (f x)) l).
Proof.
  induction l as [| x l IH]; cbn [filter]; [reflexivity |].
  destruct (f x); cbn [negb app].
  - apply perm_skip. exact IH.
  - rewrite <- Permutation_middle. apply perm_skip. exact IH.
Qed.

(** X17: the two groups of cards show every store of the list exactly once:
    the recommended stores in the order of the list, then the others by
    decreasing products_count, stores of equal count in the order of the
    list; no recommended store is among the others. *)
Theorem cards_show_each_store_once :
  forall stores_data : list Store.t,
    Permutation stores_data
      (recommended_stores stores_data ++ other_stores_sorted stores_data)
    /\ StronglySorted count_ge (other_stores_sorted stores_data)
    /\ (forall k,
          filter (fun r => (Store.products_count r =? k)%Z)
            (other_stores_sorted stores_data)
          = filter (fun r => (Store.products_count r =? k)%Z)
              (other_stores stores_data))
    /\ Forall (fun r => Store.recommended r = true)
         (recommended_stores stores_data)
    /\ Forall (fun r => Store.recommended r = false)
         (other_stores_sorted stores_data).
Proof.
  intros stores_data. unfold other_stores_sorted.
  split; [| split; [| split; [| split]]].
  - rewrite <- sorted_by_count_perm. apply filter_partition_perm.
  - apply sorted_by_count_sorted.
  - intros k. apply sorted_by_count_stable.
  - apply Forall_forall. intros r Hr. apply filter_In in Hr. tauto.
  - apply Forall_forall. intros r Hr.
    apply (Permutation_in _ (Permutation_sym (sorted_by_count_perm _))) in Hr.
    apply filter_In in Hr. destruct Hr as [_ Hr].
    destruct (Store.recommended r); [discriminate | reflexivity].
Qed.

(** ** The search button *)



(** X19: the search button is disabled for the empty item list, and a click
    it accepts never ends in a division by zero: with the button enabled the
    item list is not empty, [search_stores] does not raise
    ZeroDivisionError, and the page does not show "Errore durante la
    ricerca: division by zero". *)
Theorem accepted_click_never_divides_by_zero :
  forall (G : Type) (RNG : Generator G) (clicked : bool) (api : Services)
         (items : list string) (location : string) (max_distance : R)
         (now : Z) (previous : option Results.t) (s : state G),
    search_button_disabled [] location = true
    /\ (search_button_disabled items location = false ->
        items <> []
        /\ fst (search_stores api items location max_distance s)
           <> Raise ZeroDivisionError)
    /\ snd (fst (search_button clicked api items location max_distance now
                   previous s))
       <> Some (SearchError "Errore durante la ricerca: division by zero").
Proof.
  intros G RNG clicked api items location max_distance now previous s.
  assert (Hen : search_button_disabled items location = false ->
                items <> []).
  { unfold search_button_disabled. intros Hd Hnil. subst items.
    cbn in Hd. discriminate. }
  split; [reflexivity |]. split.
  - intros Hd. split; [exact (Hen Hd) |].
    destruct (search_stores_total api items location max_distance s (Hen Hd))
      as (stores & s' & ->).
    discriminate.
  - unfold search_button.
    destruct clicked; [| discriminate].
    destruct (search_button_disabled items location) eqn:Hd;
      [discriminate |].
    cbn [andb negb]. unfold search_action.
    destruct (search_stores_total api items location max_distance s
                (Hen eq_refl))
      as (stores & s' & ->).
    destruct stores as [| r rest]; discriminate.
Qed.

Lemma accepted_click_never_divides_by_zero_witness :
  pasta_latte <> []
  /\ fst (search_stores sample_api pasta_latte "Bergamo" 5 s0)
     <> Raise ZeroDivisionError.
Proof.
  refine (proj1 (proj2 (accepted_click_never_divides_by_zero _ _ true
                          sample_api pasta_latte "Bergamo" 5 0 None s0)) _).
  reflexivity.
Defined.

(** ** Order of the live records *)

Lemma kept_names_subseq user_lat user_lon max_distance_km places :
  forall seen,
    subseq (map Place.name
              (kept user_lat user_lon max_distance_km places seen))
      (map Place.name places).
Proof.
  induction places as [| p rest IH]; intros seen; cbn [kept map].
  - constructor.
  - destruct (Str.mem (Place.name p) seen); [apply subseq_skip, IH |].
    destruct (Float.leb _ max_distance_km).
    + cbn [map]. apply subseq_take, IH.
    + apply subseq_skip, IH.
Qed.

(** X20: whenever the loop over the places returns, the names of the
    records it appended are the names of the places it keeps (first of
    their name and within range), in the order of the place list. *)
Theorem live_records_follow_place_order :
  forall (G : Type) (RNG : Generator G) (items : list string)
         (user_lat user_lon max_distance_km : R) (places : list Place.t)
         (s : state G) (live : list Store.t) (s' : state G),
    place_loop items user_lat user_lon max_distance_km places [] [] s
      = (Ok live, s') ->
    map Store.name live
    = map Place.name (kept user_lat user_lon max_distance_km places [])
    /\ subseq (map Store.name live) (map Place.name places)
    /\ (len live <= len places)%Z.
Proof.
  intros G RNG items user_lat user_lon max_distance_km places s live s' E.
  apply place_loop_shapes in E. destruct E as (out & -> & Hout).
  cbn [app].
  assert (Hn : map Store.name out
               = map Place.name
                   (kept user_lat user_lon max_distance_km places [])).
  { apply (Forall2_map_names _ Place.name _ _ Hout).
    intros p r (av & _ & ->). reflexivity. }
  pose proof (kept_names_subseq user_lat user_lon max_distance_km places)
    as Hs.
  split; [exact Hn |]. rewrite Hn. split; [apply Hs |].
  specialize (Hs []). apply subseq_length in Hs.
  rewrite <- Hn, !length_map in Hs. unfold len. lia.
Qed.

Lemma live_records_follow_place_order_witness :
  map Store.name [sample_live_record]
  = map Place.name (kept 45 9 5 two_branches [])
  /\ subseq (map Store.name [sample_live_record])
       (map Place.name two_branches)
  /\ (len [sample_live_record] <= len two_branches)%Z.
Proof.
  exact (live_records_follow_place_order _ _ pasta_latte 45 9 5 two_branches
           _ _ _ sample_live).
Defined.

(** ** Certain outcomes of the availability draw *)

Lemma prob_of_range store_lower item_lower :
  0.4 <= prob_of store_lower item_lower <= 0.9.
Proof.
  unfold prob_of; cbv zeta.
  destruct (Str.any_in product_keywords item_lower);
    destruct (Str.any_in organic_store_keywords store_lower);
    destruct (Str.any_in discount_keywords store_lower);
    destruct (Str.any_in specialty_keywords store_lower);
    destruct (Str.any_in superstore_keywords store_lower); lra.
Qed.

(** X21: the probability [determine_available_products] compares a draw
    with is never below 0.4 nor above 0.9: whatever the store and the item,
    a draw below 0.4 makes the item available and a draw of 0.9 or more
    makes it unavailable. *)
Theorem availability_certain_outcomes :
  forall (G : Type) (RNG : Generator G) (store_name item : string)
         (s : state G),
    0.4 <= prob_of (Str.lower store_name) (Str.lower item) <= 0.9
    /\ (fst (random (gen s)) < 0.4 ->
        fst (determine_available_products store_name [item] s) = Ok [item])
    /\ (0.9 <= fst (random (gen s)) ->
        fst (determine_available_products store_name [item] s) = Ok []).
Proof.
  intros G RNG store_name item s.
  pose proof (prob_of_range (Str.lower store_name) (Str.lower item)) as Hp.
  split; [exact Hp |].
  rewrite determine_available_products_draws.
  cbn [List.length draws fst].
  destruct (random (gen s)) as [u g1]. cbn [fst stated_selection].
  rewrite <- prob_of_stated.
  split; intros Hu.
  - rewrite (proj2 (ltb_lt _ _)) by lra. reflexivity.
  - rewrite (proj2 (ltb_ge _ _)) by lra. reflexivity.
Qed.

Lemma availability_certain_outcomes_witness :
  fst (determine_available_products "Esselunga" ["pasta"%string]
         (mkState [0.1] []))
  = Ok ["pasta"%string].
Proof.
  refine (proj1 (proj2 (availability_certain_outcomes _ _ "Esselunga" "pasta"
                          (mkState [0.1] []))) _).
  cbn [gen random Replay replay_random fst]. lra.
Defined.
